(** * Recipe API: a shallow embedding of [server.js] and its variants

    The repository is an Express server over one Mongoose model, [Recipe],
    with four routes: list, create, update and reorder.  This development
    embeds the route handlers of [src/server.js] (module [ServerJs]) and
    the list, create and reorder handlers of the two later copies of the
    same server (module [ServerVariant]), and states the properties of the
    specification over them, followed by further properties of the routes
    and of sequences of requests served by the application.

    The handlers are thin: what they do is decided by three libraries that
    are not part of the repository.  Their behaviour is modelled here as far
    as the handlers use it, each in a module of its own:
    - [validator]: the string functions of validator.js ([trim], [isEmpty],
      [isInt]); [isURL] stays abstract and is handed to the routes;
    - [express_validator]: validation chains run as middleware over the
      request, and [validationResult] (standard validators and sanitizers
      take the string of a value and go through an array element by
      element, as the library's releases 6 and 7 do);
    - [mongoose]: schema casting, defaults and required paths,
      [find().sort()], [create], [findByIdAndUpdate] and [bulkWrite] over
      an in-memory collection, with the state of the connection as an
      input.

    JavaScript numbers are modelled by [Z]: the embedding covers integral
    numbers, printed in plain decimal; fractional numbers are outside of
    it.  Strings are sequences of 8-bit characters, and whitespace is the
    ASCII whitespace. *)

From Stdlib Require Import ZArith Ascii String List Lia.
From Stdlib Require Import DecimalString DecimalPos DecimalZ.
From Stdlib Require Import Sorting.Sorted Sorting.Permutation.
From stdpp Require Import base option list gmap strings sorting.

Set Warnings "-register-all".

Local Open Scope string_scope.
Local Open Scope Z_scope.

(** ** JSON values *)

Inductive json : Type :=
| JNull
| JBool (b : bool)
| JNum (n : Z)
| JStr (s : string)
| JArr (l : list json)
| JObj (o : list (string * json)).

(** A JavaScript object received as a request body: a finite map from keys
    to JSON values.  A missing key reads as [undefined], here [None]. *)
Abbreviation object := (gmap string json).

(** [obj.key] on a nested object literal. *)
Fixpoint prop (o : list (string * json)) (k : string) : option json :=
  match o with
  | [] => None
  | (k', v) :: o' => if String.eqb k k' then Some v else prop o' k
  end.

Definition field (v : json) (k : string) : option json :=
  match v with
  | JObj o => prop o k
  | _ => None
  end.

(** [String(n)] for an integral number. *)
Definition decimal (n : Z) : string := NilZero.string_of_int (Z.to_int n).

Fixpoint join (sep : string) (l : list string) : string :=
  match l with
  | [] => ""
  | [s] => s
  | s :: l' => String.append s (String.append sep (join sep l'))
  end.

(** [String(v)]: the ToString conversion of JavaScript on JSON values.
    An array prints its elements separated by commas, with [null] printed
    as the empty string; a plain object prints as [[object Object]]. *)
Fixpoint js_String (v : json) : string :=
  match v with
  | JNull => "null"
  | JBool true => "true"
  | JBool false => "false"
  | JNum n => decimal n
  | JStr s => s
  | JArr l =>
      join "," (List.map (fun x => match x with
                                   | JNull => ""
                                   | _ => js_String x
                                   end) l)
  | JObj _ => "[object Object]"
  end.

(** ** validator.js *)

Module validator.

(** The characters matched by [\s], on the ASCII range. *)
Definition is_space (c : ascii) : bool :=
  match c with
  | " " | "009" | "010" | "011" | "012" | "013" => true
  | _ => false
  end%char.

Fixpoint ltrim (s : string) : string :=
  match s with
  | EmptyString => EmptyString
  | String c r => if is_space c then ltrim r else s
  end.

Fixpoint rtrim (s : string) : string :=
  match s with
  | EmptyString => EmptyString
  | String c r =>
      match rtrim r with
      | EmptyString => if is_space c then EmptyString else String c EmptyString
      | r' => String c r'
      end
  end.

(** [trim(str)]: whitespace removed from both ends. *)
Definition trim (s : string) : string := rtrim (ltrim s).

(** [isEmpty(str)] with the default options: [str.length === 0]. *)
Definition isEmpty (s : string) : bool :=
  match s with
  | EmptyString => true
  | _ => false
  end.

(** The sign and the digits of a string matched against
    [/^[-+]?[0-9]+$/], and the number the match denotes. *)
Definition signed_digits (s : string) : option Z :=
  let '(negative, digits) :=
    match s with
    | String "+" r => (false, r)
    | String "-" r => (true, r)
    | _ => (false, s)
    end%char in
  match NilZero.uint_of_string digits with
  | Some d => Some (if negative : bool then - Z.of_uint d else Z.of_uint d)
  | None => None
  end.

(** [isInt(str, { min })]: leading zeroes are allowed by default; the
    lower bound compares the number the string denotes. *)
Definition isInt (min : Z) (s : string) : bool :=
  match signed_digits s with
  | Some n => min <=? n
  | None => false
  end.

End validator.

(** ** express-validator *)

Module express_validator.

(** The library's [toString]: what a standard validator or sanitizer is
    handed for a field value. *)
Definition toString (v : option json) : string :=
  match v with
  | None | Some JNull => ""
  | Some v => js_String v
  end.

(** One entry of [errors.array()]. *)
Record violation : Type := Violation {
  path : string;
  msg : string;
  value : option json
}.

(** The items a chain is built from: [.trim()] and the like are standard
    sanitizers, [.isURL()], [.isInt()] and [.not().isEmpty()] standard
    validators, [.isArray()] a custom validator over the raw value.
    [.withMessage] sets the message of the validator before it. *)
Inductive item : Type :=
| Sanitizer (f : string -> string)
| Standard (f : string -> bool) (negated : bool) (message : string)
| Custom (f : option json -> bool) (message : string).

Record chain : Type := Chain {
  selector : string;
  stack : list item
}.

(** The request as the middleware and the handlers see it: the route
    parameter, the parsed body and the violations recorded so far. *)
Record request : Type := Request {
  params_id : string;
  body : object;
  contexts : list violation
}.

(** The values a standard item is applied to: an array field is handled
    element by element, any other value as it is. *)
Definition instances (v : option json) : list (option json) :=
  match v with
  | Some (JArr l) => List.map Some l
  | _ => [v]
  end.

Definition sanitize (f : string -> string) (v : option json) : json :=
  match v with
  | Some (JArr l) => JArr (List.map (fun x => JStr (f (toString (Some x)))) l)
  | _ => JStr (f (toString v))
  end.

(** A standard validator fails on a value when the predicate does not
    hold of its string, or holds of it after [.not()]. *)
Definition fails (f : string -> bool) (negated : bool) (x : option json) : bool :=
  let r := f (toString x) in if negated then r else negb r.

(** One item run on the field [p] of the request. A sanitizer writes
    the new value back; a validator records its violations. *)
Definition run_item (p : string) (it : item) (req : request) : request :=
  let v := body req !! p in
  match it with
  | Sanitizer f =>
      {| params_id := params_id req;
         body := <[p := sanitize f v]> (body req);
         contexts := contexts req |}
  | Standard f negated message =>
      {| params_id := params_id req;
         body := body req;
         contexts :=
           contexts req ++
           List.map (Violation p message)
             (List.filter (fails f negated) (instances v)) |}
  | Custom f message =>
      {| params_id := params_id req;
         body := body req;
         contexts :=
           contexts req ++ (if f v then [] else [Violation p message v]) |}
  end.

(** A chain used as middleware: every item runs, in order. *)
Definition run_chain (c : chain) (req : request) : request :=
  fold_left (fun r it => run_item (selector c) it r) (stack c) req.

(** The array of chains given to a route: every chain runs, in order. *)
Definition run_chains (cs : list chain) (req : request) : request :=
  fold_left (fun r c => run_chain c r) cs req.

(** [validationResult(req).array()]. *)
Definition validationResult (req : request) : list violation := contexts req.

(** The validators of the chain API used by the routes. *)
Definition notEmpty (message : string) : item :=
  Standard validator.isEmpty true message.

Definition isArray (min : nat) (message : string) : item :=
  Custom (fun v => match v with
                   | Some (JArr l) => bool_decide (min ≤ length l)%nat
                   | _ => false
                   end) message.

Definition isInt (min : Z) (message : string) : item :=
  Standard (validator.isInt min) false message.

Definition trim : item := Sanitizer validator.trim.

End express_validator.

(** ** Mongoose over an in-memory collection *)

(** The outcome of a library call that may throw; the error is its
    [err.message] (texts abbreviated). *)
Inductive result (A : Type) : Type :=
| Ok (a : A)
| Err (message : string).
Arguments Ok {A} a.
Arguments Err {A} message.

#[global] Instance result_ret : MRet result := fun A a => Ok a.
#[global] Instance result_bind : MBind result := fun A B f r =>
  match r with
  | Ok a => f a
  | Err m => Err m
  end.

Module mongoose.

(** An [ObjectId], by its 24 lowercase hexadecimal digits. *)
Definition ObjectId : Type := string.

Definition is_hex (c : ascii) : bool :=
  let n := nat_of_ascii c in
  ((48 <=? n) && (n <=? 57) || (65 <=? n) && (n <=? 70) ||
   (97 <=? n) && (n <=? 102))%nat.

Definition lower (c : ascii) : ascii :=
  let n := nat_of_ascii c in
  if ((65 <=? n) && (n <=? 90))%nat then ascii_of_nat (n + 32) else c.

(** The id a string denotes: accepted when it holds 24 hexadecimal
    digits, whatever their case. *)
Definition hex24 (s : string) : option ObjectId :=
  let cs := list_ascii_of_string s in
  if ((length cs =? 24)%nat && forallb is_hex cs)%bool
  then Some (string_of_list_ascii (List.map lower cs))
  else None.

(** What an [_id] condition of a filter selects. *)
Inductive id_filter : Type :=
| Matches (i : ObjectId)
| MatchesNone.

(** The cast of a filter's [_id] by the schema, as [findByIdAndUpdate]
    and [bulkWrite] do it before anything is sent to the store: [null]
    selects nothing, a string must denote an id, numbers and booleans are
    cast through their string and so fail.  Arrays and objects (query
    operators) are not covered: the embedding rejects them. *)
Definition castObjectId (v : json) : result id_filter :=
  match v with
  | JNull => Ok MatchesNone
  | JStr s =>
      match hex24 s with
      | Some i => Ok (Matches i)
      | None => Err "Cast to ObjectId failed at path _id"
      end
  | _ => Err "Cast to ObjectId failed at path _id"
  end.

(** [new mongoose.Types.ObjectId(id)]: [null] and a number make the
    constructor generate an id of its own, which is the id of no stored
    document; a string must denote an id; anything else throws. *)
Definition new_ObjectId (v : json) : result id_filter :=
  match v with
  | JNull | JNum _ => Ok MatchesNone
  | JStr s =>
      match hex24 s with
      | Some i => Ok (Matches i)
      | None => Err "input must be a 24 character hex string, 12 byte Uint8Array, or an integer"
      end
  | _ => Err "Argument passed in does not match the accepted types"
  end.

(** A stored document of [recipeSchema].  The paths that are not
    required can hold [null]; so can the elements of a string array. *)
Record Recipe : Type := mkRecipe {
  _id : ObjectId;
  name : string;
  cuisine : string;
  instructions : string;
  ingredients : list (option string);
  image : string;
  prepTimeMinutes : Z;
  cookTimeMinutes : Z;
  servings : Z;
  tags : option (list (option string));
  position : option Z
}.

Definition set_name (x : string) (r : Recipe) : Recipe :=
  mkRecipe (_id r) x (cuisine r) (instructions r) (ingredients r) (image r)
    (prepTimeMinutes r) (cookTimeMinutes r) (servings r) (tags r) (position r).
Definition set_cuisine (x : string) (r : Recipe) : Recipe :=
  mkRecipe (_id r) (name r) x (instructions r) (ingredients r) (image r)
    (prepTimeMinutes r) (cookTimeMinutes r) (servings r) (tags r) (position r).
Definition set_instructions (x : string) (r : Recipe) : Recipe :=
  mkRecipe (_id r) (name r) (cuisine r) x (ingredients r) (image r)
    (prepTimeMinutes r) (cookTimeMinutes r) (servings r) (tags r) (position r).
Definition set_ingredients (x : list (option string)) (r : Recipe) : Recipe :=
  mkRecipe (_id r) (name r) (cuisine r) (instructions r) x (image r)
    (prepTimeMinutes r) (cookTimeMinutes r) (servings r) (tags r) (position r).
Definition set_image (x : string) (r : Recipe) : Recipe :=
  mkRecipe (_id r) (name r) (cuisine r) (instructions r) (ingredients r) x
    (prepTimeMinutes r) (cookTimeMinutes r) (servings r) (tags r) (position r).
Definition set_prepTimeMinutes (x : Z) (r : Recipe) : Recipe :=
  mkRecipe (_id r) (name r) (cuisine r) (instructions r) (ingredients r) (image r)
    x (cookTimeMinutes r) (servings r) (tags r) (position r).
Definition set_cookTimeMinutes (x : Z) (r : Recipe) : Recipe :=
  mkRecipe (_id r) (name r) (cuisine r) (instructions r) (ingredients r) (image r)
    (prepTimeMinutes r) x (servings r) (tags r) (position r).
Definition set_servings (x : Z) (r : Recipe) : Recipe :=
  mkRecipe (_id r) (name r) (cuisine r) (instructions r) (ingredients r) (image r)
    (prepTimeMinutes r) (cookTimeMinutes r) x (tags r) (position r).
Definition set_tags (x : option (list (option string))) (r : Recipe) : Recipe :=
  mkRecipe (_id r) (name r) (cuisine r) (instructions r) (ingredients r) (image r)
    (prepTimeMinutes r) (cookTimeMinutes r) (servings r) x (position r).
(** [{ $set: { position: x } }]. *)
Definition set_position (x : option Z) (r : Recipe) : Recipe :=
  mkRecipe (_id r) (name r) (cuisine r) (instructions r) (ingredients r) (image r)
    (prepTimeMinutes r) (cookTimeMinutes r) (servings r) (tags r) x.

(** *** Casting by schema type *)

(** [String]: numbers and booleans are cast through [toString]; arrays
    and plain objects are refused, but for an object with a string
    [_id]. *)
Definition castString (v : json) : result (option string) :=
  match v with
  | JNull => Ok None
  | JStr s => Ok (Some s)
  | JNum _ | JBool _ => Ok (Some (js_String v))
  | JArr _ => Err "Cast to string failed"
  | JObj o =>
      match prop o "_id" with
      | Some (JStr s) => Ok (Some s)
      | _ => Err "Cast to string failed"
      end
  end.

(** [Number(str)] on the strings the embedding covers: an optionally
    signed run of decimal digits between whitespace, and the blank string,
    which is 0.  Anything else counts as [NaN]. *)
Definition js_Number (s : string) : option Z :=
  match validator.trim s with
  | EmptyString => Some 0
  | t => validator.signed_digits t
  end.

(** [Number]: the empty string is [null], other strings and booleans go
    through [Number()], and [NaN], arrays and plain objects are refused. *)
Definition castNumber (v : json) : result (option Z) :=
  match v with
  | JNull => Ok None
  | JNum n => Ok (Some n)
  | JBool b => Ok (Some (if b then 1 else 0))
  | JStr EmptyString => Ok None
  | JStr s =>
      match js_Number s with
      | Some n => Ok (Some n)
      | None => Err "Cast to Number failed"
      end
  | JArr _ | JObj _ => Err "Cast to Number failed"
  end.

Fixpoint castStrings (l : list json) : result (list (option string)) :=
  match l with
  | [] => Ok []
  | v :: l' =>
      s ← castString v;
      r ← castStrings l';
      Ok (s :: r)
  end.

(** [[String]]: a value that is not an array is cast as the array that
    holds it. *)
Definition castStringArray (v : json) : result (option (list (option string))) :=
  match v with
  | JNull => Ok None
  | JArr l => l' ← castStrings l; Ok (Some l')
  | _ => l' ← castStrings [v]; Ok (Some l')
  end.

(** *** [required: true] *)

Definition required {A} (p : string) (r : result (option A)) : result A :=
  match r with
  | Ok (Some a) => Ok a
  | Ok None => Err (String.append p " is required")
  | Err m => Err m
  end.

(** A required string is also refused when it is empty. *)
Definition requiredString (p : string) (v : json) : result string :=
  s ← required p (castString v);
  if validator.isEmpty s then Err (String.append p " is required") else Ok s.

Definition requiredNumber (p : string) (v : json) : result Z :=
  required p (castNumber v).

Definition requiredStrings (p : string) (v : json) : result (list (option string)) :=
  required p (castStringArray v).

(** The value of a path of a new document: [undefined] takes the
    default when there is one, and fails the cast of a required path. *)
Definition path_of {A} (b : object) (p : string)
    (cast : json -> result A) (default : option A) : result A :=
  match b !! p, default with
  | Some v, _ => cast v
  | None, Some d => Ok d
  | None, None => Err (String.append p " is required")
  end.

(** [new Recipe(body)] followed by validation, at the time [now] and with
    the generated id [fresh].  Keys that the schema does not declare are
    dropped; an [_id] of the client's own is outside the embedding. *)
Definition new_Recipe (now : Z) (fresh : ObjectId) (b : object) : result Recipe :=
  x1 ← path_of b "name" (requiredString "name") None;
  x2 ← path_of b "cuisine" (requiredString "cuisine") None;
  x3 ← path_of b "instructions" (requiredString "instructions") None;
  x4 ← path_of b "ingredients" (requiredStrings "ingredients") (Some []);
  x5 ← path_of b "image" (requiredString "image") None;
  x6 ← path_of b "prepTimeMinutes" (requiredNumber "prepTimeMinutes") None;
  x7 ← path_of b "cookTimeMinutes" (requiredNumber "cookTimeMinutes") None;
  x8 ← path_of b "servings" (requiredNumber "servings") None;
  x9 ← path_of b "tags" castStringArray (Some (Some []));
  x10 ← path_of b "position" castNumber (Some (Some now));
  Ok (mkRecipe fresh x1 x2 x3 x4 x5 x6 x7 x8 x9 x10).

(** *** The collection and the connection *)

(** The collection, in insertion order. *)
Abbreviation collection := (list Recipe).

(** The state of the connection during one request: [None] when it is
    healthy, [Some (k, m)] when the operation after the next [k] fails
    with the message [m]. *)
Definition fault : Type := option (nat * string).

Definition after_one (flt : fault) : fault :=
  match flt with
  | Some (S k, m) => Some (k, m)
  | _ => flt
  end.

Definition failing (flt : fault) : option string :=
  match flt with
  | Some (O, m) => Some m
  | _ => None
  end.

(** The order of [sort({ position: 1 })]: [null] sorts before every
    number. *)
Definition position_le (a b : option Z) : bool :=
  match a, b with
  | None, _ => true
  | Some _, None => false
  | Some x, Some y => x <=? y
  end.

Fixpoint insert_sorted (r : Recipe) (l : list Recipe) : list Recipe :=
  match l with
  | [] => [r]
  | y :: l' =>
      if position_le (position r) (position y) then r :: l
      else y :: insert_sorted r l'
  end.

(** Documents with equal positions stay in collection order: the data
    model of the specification breaks ties by store order. *)
Definition sort_by_position (l : list Recipe) : list Recipe :=
  foldr insert_sorted [] l.

(** [Recipe.find().sort({ position: 1 })]. *)
Definition find_sorted (flt : fault) (st : collection) : result (list Recipe) :=
  match failing flt with
  | Some m => Err m
  | None => Ok (sort_by_position st)
  end.

Definition has_id (i : ObjectId) (r : Recipe) : bool := String.eqb (_id r) i.

(** [Recipe.create(body)]: the document is built and validated, then
    inserted; the store refuses a second document with the same [_id]. *)
Definition create (flt : fault) (now : Z) (fresh : ObjectId)
    (st : collection) (b : object) : result (Recipe * collection) :=
  doc ← new_Recipe now fresh b;
  match failing flt with
  | Some m => Err m
  | None =>
      if existsb (has_id fresh) st then Err "E11000 duplicate key error"
      else Ok (doc, (st ++ [doc])%list)
  end.

(** The first document the filter selects is updated, if there is one. *)
Fixpoint update_first (i : ObjectId) (f : Recipe -> Recipe)
    (st : collection) : collection :=
  match st with
  | [] => []
  | r :: st' => if has_id i r then f r :: st' else r :: update_first i f st'
  end.

Definition find_by_id (i : ObjectId) (st : collection) : option Recipe :=
  List.find (has_id i) st.

(** The cast of an update document: each declared path that the payload
    holds is cast like on creation and set; with [runValidators] the
    required paths refuse [null] and the empty string. *)
Definition set_path {A} (b : object) (p : string)
    (cast : json -> result A) (set : A -> Recipe -> Recipe)
    : result (Recipe -> Recipe) :=
  match b !! p with
  | Some v => a ← cast v; Ok (set a)
  | None => Ok (fun r => r)
  end.

Definition castUpdate (b : object) : result (Recipe -> Recipe) :=
  f1 ← set_path b "name" (requiredString "name") set_name;
  f2 ← set_path b "cuisine" (requiredString "cuisine") set_cuisine;
  f3 ← set_path b "instructions" (requiredString "instructions") set_instructions;
  f4 ← set_path b "ingredients" (requiredStrings "ingredients") set_ingredients;
  f5 ← set_path b "image" (requiredString "image") set_image;
  f6 ← set_path b "prepTimeMinutes" (requiredNumber "prepTimeMinutes") set_prepTimeMinutes;
  f7 ← set_path b "cookTimeMinutes" (requiredNumber "cookTimeMinutes") set_cookTimeMinutes;
  f8 ← set_path b "servings" (requiredNumber "servings") set_servings;
  f9 ← set_path b "tags" castStringArray set_tags;
  f10 ← set_path b "position" castNumber set_position;
  Ok (fun r => f10 (f9 (f8 (f7 (f6 (f5 (f4 (f3 (f2 (f1 r)))))))))).

(** [Recipe.findByIdAndUpdate(id, body, { new: true, runValidators: true })]:
    the id and the update are cast first; the result is the updated
    document, or [null] (here [None]) when no document has the id. *)
Definition findByIdAndUpdate (flt : fault) (st : collection) (id : string)
    (b : object) : result (option Recipe * collection) :=
  sel ← castObjectId (JStr id);
  f ← castUpdate b;
  match failing flt with
  | Some m => Err m
  | None =>
      match sel with
      | MatchesNone => Ok (None, st)
      | Matches i =>
          match find_by_id i st with
          | None => Ok (None, st)
          | Some r => Ok (Some (f r), update_first i f st)
          end
      end
  end.

(** One operation of a bulk write, as the routes build it:
    [{ updateOne: { filter: { _id }, update: { $set: { position } } } }]. *)
Record updateOne (I : Type) : Type := UpdateOne {
  filter_id : I;
  set_to : Z
}.
Arguments UpdateOne {I} filter_id set_to.
Arguments filter_id {I} u.
Arguments set_to {I} u.

Definition apply_op (op : updateOne id_filter) (st : collection) : collection :=
  match filter_id op with
  | Matches i => update_first i (set_position (Some (set_to op))) st
  | MatchesNone => st
  end.

(** The operations run in order; the first that fails stops the batch
    and leaves the earlier ones applied. *)
Fixpoint execute (flt : fault) (ops : list (updateOne id_filter))
    (st : collection) : collection * option string :=
  match ops with
  | [] => (st, None)
  | op :: ops' =>
      match failing flt with
      | Some m => (st, Some m)
      | None => execute (after_one flt) ops' (apply_op op st)
      end
  end.

Fixpoint cast_ops {I} (cast : I -> result id_filter)
    (ops : list (updateOne I)) : result (list (updateOne id_filter)) :=
  match ops with
  | [] => Ok []
  | op :: ops' =>
      sel ← cast (filter_id op);
      r ← cast_ops cast ops';
      Ok (UpdateOne sel (set_to op) :: r)
  end.

(** [Recipe.bulkWrite(ops)], ordered: every filter is cast before the
    batch is sent, so a cast error leaves the collection as it was.
    [cast] is the cast of what the route put in the filter: a raw JSON
    value ([castObjectId]), or an [ObjectId] made by the route ([Ok]). *)
Definition bulkWrite {I} (cast : I -> result id_filter) (flt : fault)
    (st : collection) (ops : list (updateOne I)) : collection * option string :=
  match cast_ops cast ops with
  | Err m => (st, Some m)
  | Ok ops' => execute flt ops' st
  end.

(** A document as [res.json] sends it. *)
Definition json_of_string (s : option string) : json :=
  match s with
  | Some s => JStr s
  | None => JNull
  end.

Definition json_of_number (n : option Z) : json :=
  match n with
  | Some n => JNum n
  | None => JNull
  end.

Definition json_of_strings (l : option (list (option string))) : json :=
  match l with
  | Some l => JArr (List.map json_of_string l)
  | None => JNull
  end.

Definition toJSON (r : Recipe) : json :=
  JObj [("_id", JStr (_id r));
        ("name", JStr (name r));
        ("cuisine", JStr (cuisine r));
        ("instructions", JStr (instructions r));
        ("ingredients", json_of_strings (Some (ingredients r)));
        ("image", JStr (image r));
        ("prepTimeMinutes", JNum (prepTimeMinutes r));
        ("cookTimeMinutes", JNum (cookTimeMinutes r));
        ("servings", JNum (servings r));
        ("tags", json_of_strings (tags r));
        ("position", json_of_number (position r));
        ("__v", JNum 0)].

End mongoose.

(** ** The routes *)

(** What a handler answers: [res.status(s).json(payload)]. *)
Record response : Type := Response {
  status : Z;
  payload : json
}.

(** What a request finds outside of the collection: the clock read by
    [Date.now], the id the driver generates for a new document, and the
    state of the connection. *)
Record env : Type := Env {
  clock : Z;
  generated : mongoose.ObjectId;
  connection : mongoose.fault
}.

Definition json_of_violation (e : express_validator.violation) : json :=
  JObj ([("type", JStr "field")] ++
        match express_validator.value e with
        | Some v => [("value", v)]
        | None => []
        end ++
        [("msg", JStr (express_validator.msg e));
         ("path", JStr (express_validator.path e));
         ("location", JStr "body")])%list.

(** [{ errors: errors.array() }]. *)
Definition errors_body (errors : list express_validator.violation) : json :=
  JObj [("errors", JArr (List.map json_of_violation errors))].

Definition message_body (m : string) : json := JObj [("message", JStr m)].

Definition message_error_body (m detail : string) : json :=
  JObj [("message", JStr m); ("error", JStr detail)].

(** The validators of POST and PUT [/api/recipes], the same eight chains
    in both routes.  [isURL] is validator.js's predicate. *)
Definition recipeValidators (isURL : string -> bool) : list express_validator.chain :=
  let body := express_validator.Chain in
  let trim := express_validator.trim in
  let notEmpty := express_validator.notEmpty in
  let isInt := express_validator.isInt in
  [ body "name" [trim; notEmpty "Recipe name is required"];
    body "cuisine" [trim; notEmpty "Cuisine is required"];
    body "instructions" [trim; notEmpty "Instructions are required"];
    body "ingredients"
      [express_validator.isArray 1 "At least one ingredient is required"];
    body "image"
      [trim; express_validator.Standard isURL false "Valid image URL is required"];
    body "prepTimeMinutes" [isInt 1 "Valid prep time is required"];
    body "cookTimeMinutes" [isInt 1 "Valid cook time is required"];
    body "servings" [isInt 1 "Valid servings number is required"] ].

(** [array.map((x, index) => f(x, index))], with the indices counted from
    [i]. *)
Fixpoint map_from {A B} (i : nat) (f : A -> nat -> B) (l : list A) : list B :=
  match l with
  | [] => []
  | x :: l' => f x i :: map_from (S i) f l'
  end.

(** [orderedIds.map((id, index) => ({ updateOne: { filter: { _id: g(id) },
    update: { $set: { position: index + 1 } } } }))]. *)
Definition bulkUpdates {I} (g : json -> I) (orderedIds : list json)
    : list (mongoose.updateOne I) :=
  map_from 0 (fun id index => mongoose.UpdateOne (g id) (Z.of_nat index + 1))
    orderedIds.

(** *** [src/server.js] *)

Module ServerJs.
Import express_validator mongoose.

(** GET [/api/recipes]. *)
Definition get_api_recipes (e : env) (st : collection) : response :=
  match find_sorted (connection e) st with
  | Ok recipes => Response 200 (JArr (List.map toJSON recipes))
  | Err _ => Response 500 (message_body "Server error")
  end.

(** POST [/api/recipes], the handler behind the validators. *)
Definition post_api_recipes_handler (e : env) (st : collection)
    (req : request) : collection * response :=
  let errors := validationResult req in
  match errors with
  | _ :: _ => (st, Response 400 (errors_body errors))
  | [] =>
      match create (connection e) (clock e) (generated e) st (body req) with
      | Ok (newRecipe, st') => (st', Response 201 (toJSON newRecipe))
      | Err _ => (st, Response 500 (message_body "Server error"))
      end
  end.

(** POST [/api/recipes]: the validators, then the handler. *)
Definition post_api_recipes (isURL : string -> bool) (e : env)
    (st : collection) (req : request) : collection * response :=
  post_api_recipes_handler e st (run_chains (recipeValidators isURL) req).

(** PUT [/api/recipes/:id], the handler behind the validators. *)
Definition put_api_recipes_handler (e : env) (st : collection)
    (req : request) : collection * response :=
  let errors := validationResult req in
  match errors with
  | _ :: _ => (st, Response 400 (errors_body errors))
  | [] =>
      match findByIdAndUpdate (connection e) st (params_id req) (body req) with
      | Ok (None, st') => (st', Response 404 (message_body "Recipe not found"))
      | Ok (Some updatedRecipe, st') => (st', Response 200 (toJSON updatedRecipe))
      | Err _ => (st, Response 500 (message_body "Server error"))
      end
  end.

(** PUT [/api/recipes/:id]: the validators, then the handler. *)
Definition put_api_recipes (isURL : string -> bool) (e : env)
    (st : collection) (req : request) : collection * response :=
  put_api_recipes_handler e st (run_chains (recipeValidators isURL) req).

(** POST [/api/recipes/reorder]. *)
Definition post_api_recipes_reorder (e : env) (st : collection)
    (req : request) : collection * response :=
  match body req !! "orderedIds" with
  | Some (JArr orderedIds) =>
      match bulkWrite castObjectId (connection e) st
              (bulkUpdates (fun id => id) orderedIds) with
      | (st', None) =>
          (st', Response 200 (message_body "Recipes reordered successfully"))
      | (st', Some _) => (st', Response 500 (message_body "Server error"))
      end
  | _ => (st, Response 400 (message_body "Invalid request format"))
  end.

End ServerJs.

(** *** The later variants of the server

    Two further copies of the server differ from [server.js] in the error
    bodies, which carry [err.message], and in the reorder route, which
    builds each [ObjectId] itself.  Their PUT route has an empty handler
    and is not embedded. *)

Module ServerVariant.
Import express_validator mongoose.

(** GET [/api/recipes]. *)
Definition get_api_recipes (e : env) (st : collection) : response :=
  match find_sorted (connection e) st with
  | Ok recipes => Response 200 (JArr (List.map toJSON recipes))
  | Err m => Response 500 (message_error_body "Failed to fetch recipes" m)
  end.

(** POST [/api/recipes], the handler behind the validators. *)
Definition post_api_recipes_handler (e : env) (st : collection)
    (req : request) : collection * response :=
  let errors := validationResult req in
  match errors with
  | _ :: _ => (st, Response 400 (errors_body errors))
  | [] =>
      match create (connection e) (clock e) (generated e) st (body req) with
      | Ok (newRecipe, st') => (st', Response 201 (toJSON newRecipe))
      | Err m => (st, Response 500 (message_error_body "Failed to create recipe" m))
      end
  end.

Definition post_api_recipes (isURL : string -> bool) (e : env)
    (st : collection) (req : request) : collection * response :=
  post_api_recipes_handler e st (run_chains (recipeValidators isURL) req).

(** POST [/api/recipes/reorder].  Each filter holds
    [new mongoose.Types.ObjectId(id)]; the first of them that throws ends
    the request before anything is written, which is how [bulkWrite]
    treats a filter that fails its cast. *)
Definition post_api_recipes_reorder (e : env) (st : collection)
    (req : request) : collection * response :=
  match body req !! "orderedIds" with
  | Some (JArr orderedIds) =>
      match bulkWrite (fun i => i) (connection e) st
              (bulkUpdates new_ObjectId orderedIds) with
      | (st', None) =>
          (st', Response 200 (message_body "Recipes reordered successfully"))
      | (st', Some m) =>
          (st', Response 500 (message_error_body "Failed to reorder recipes" m))
      end
  | _ => (st, Response 400 (message_body "Invalid request format"))
  end.

End ServerVariant.

(** ** The specification's side

    The definitions below follow the words of the specification; the
    theorems relate them to the routes above. *)

(** *** The validation layer as a table of rules *)

Inductive rule_kind : Type :=
| NonEmptyText
| AtLeast (n : nat)
| WellFormedUrl
| IntegerFrom (min : Z).

Record field_rule : Type := FieldRule {
  rule_field : string;
  rule_kind_of : rule_kind;
  rule_message : string
}.

Definition field_rules : list field_rule :=
  [ FieldRule "name" NonEmptyText "Recipe name is required";
    FieldRule "cuisine" NonEmptyText "Cuisine is required";
    FieldRule "instructions" NonEmptyText "Instructions are required";
    FieldRule "ingredients" (AtLeast 1) "At least one ingredient is required";
    FieldRule "image" WellFormedUrl "Valid image URL is required";
    FieldRule "prepTimeMinutes" (IntegerFrom 1) "Valid prep time is required";
    FieldRule "cookTimeMinutes" (IntegerFrom 1) "Valid cook time is required";
    FieldRule "servings" (IntegerFrom 1) "Valid servings number is required" ].

(** A rule read on a field value.  The text, URL and integer rules read the
    string of the value; on an array they read each element. *)
Definition satisfies (isURL : string -> bool) (k : rule_kind)
    (v : option json) : bool :=
  let each (ok : string -> bool) :=
    forallb (fun x => ok (express_validator.toString x))
      (express_validator.instances v) in
  match k with
  | NonEmptyText => each (fun s => negb (validator.isEmpty (validator.trim s)))
  | AtLeast n =>
      match v with
      | Some (JArr l) => bool_decide (n ≤ length l)%nat
      | _ => false
      end
  | WellFormedUrl => each (fun s => isURL (validator.trim s))
  | IntegerFrom min => each (validator.isInt min)
  end.

(** The chain that states a rule. *)
Definition chain_of (isURL : string -> bool) (r : field_rule)
    : express_validator.chain :=
  express_validator.Chain (rule_field r)
    match rule_kind_of r with
    | NonEmptyText =>
        [express_validator.trim; express_validator.notEmpty (rule_message r)]
    | AtLeast n => [express_validator.isArray n (rule_message r)]
    | WellFormedUrl =>
        [express_validator.trim;
         express_validator.Standard isURL false (rule_message r)]
    | IntegerFrom min => [express_validator.isInt min (rule_message r)]
    end.

(** A request as it reaches a route: nothing recorded yet. *)
Definition incoming (id : string) (b : object) : express_validator.request :=
  express_validator.Request id b [].

(** The violations of one chain run alone on a payload. *)
Definition violations_of (c : express_validator.chain) (b : object)
    : list express_validator.violation :=
  express_validator.validationResult
    (express_validator.run_chain c (incoming "" b)).

(** The violations of a stack of items as a function of the field value
    alone: the value is threaded through the sanitizers. *)
Fixpoint stack_violations (p : string) (its : list express_validator.item)
    (v : option json) : list express_validator.violation :=
  match its with
  | [] => []
  | express_validator.Sanitizer f :: its' =>
      stack_violations p its' (Some (express_validator.sanitize f v))
  | express_validator.Standard f negated m :: its' =>
      List.map (express_validator.Violation p m)
        (List.filter (express_validator.fails f negated)
           (express_validator.instances v))
      ++ stack_violations p its' v
  | express_validator.Custom f m :: its' =>
      (if f v then [] else [express_validator.Violation p m v])
      ++ stack_violations p its' v
  end%list.

(** What it is for a chain to report a rule on a payload: its violations
    name the field with the rule's message, there is none exactly when the
    field satisfies the rule, and there is at most one unless a text, URL
    or integer field holds an array. *)
Definition reports (isURL : string -> bool) (c : express_validator.chain)
    (r : field_rule) (b : object) : Prop :=
  let vs := violations_of c b in
  Forall (fun e => express_validator.path e = rule_field r
                   /\ express_validator.msg e = rule_message r) vs
  /\ (vs = [] <-> satisfies isURL (rule_kind_of r) (b !! rule_field r) = true)
  /\ (match rule_kind_of r with
      | AtLeast _ => True
      | _ => forall l, b !! rule_field r <> Some (JArr l)
      end -> (length vs <= 1)%nat).

(** *** The data model: payloads whose fields have the types of a recipe *)










(** *** The listing order *)

(** [before r1 r2]: the position of [r1] does not come after that of
    [r2]. *)
Definition before (r1 r2 : mongoose.Recipe) : Prop :=
  mongoose.position_le (mongoose.position r1) (mongoose.position r2) = true.

(** *** Sequences of create requests *)

(** Requests served one after the other: each finds the state the one
    before it left. *)
Fixpoint serve {S Q R : Type} (handle : S -> Q -> S * R) (st : S)
    (reqs : list Q) : S * list R :=
  match reqs with
  | [] => (st, [])
  | q :: reqs' =>
      let '(st', res) := handle st q in
      let '(st'', rs) := serve handle st' reqs' in
      (st'', res :: rs)
  end.



(** *** Reordering *)

(** The recipes an id sequence names. *)
Definition listed (ids : list mongoose.ObjectId) (r : mongoose.Recipe) : bool :=
  bool_decide (mongoose._id r ∈ ids).

(** The ids of a sequence, each kept where the sequence names it last. *)
Fixpoint lasts (ids : list mongoose.ObjectId) : list mongoose.ObjectId :=
  match ids with
  | [] => []
  | i :: ids' => if bool_decide (i ∈ ids') then lasts ids' else i :: lasts ids'
  end.

(** The known recipes of an id sequence, in the order of the sequence,
    each at the 1-based index of its id (the last one, should the sequence
    repeat the id); the indices count from [k]. *)
Fixpoint placed_from (k : nat) (st : mongoose.collection)
    (ids : list mongoose.ObjectId) : list mongoose.Recipe :=
  match ids with
  | [] => []
  | i :: ids' =>
      match bool_decide (i ∈ ids'), mongoose.find_by_id i st with
      | false, Some r => [mongoose.set_position (Some (Z.of_nat k + 1)) r]
      | _, _ => []
      end ++ placed_from (S k) st ids'
  end%list.

Definition placed (st : mongoose.collection) (ids : list mongoose.ObjectId)
    : list mongoose.Recipe :=
  placed_from 0 st ids.

(** The ids of a sequence that the collection knows. *)
Definition known (st : mongoose.collection) (ids : list mongoose.ObjectId)
    : list mongoose.ObjectId :=
  List.filter (fun i => bool_decide (i ∈ List.map mongoose._id st)) ids.

(** The 1-based index of the last occurrence of an id in a sequence, the
    indices counted from [k]. *)
Fixpoint rank_from (k : nat) (ids : list mongoose.ObjectId)
    (i : mongoose.ObjectId) : option Z :=
  match ids with
  | [] => None
  | x :: ids' =>
      match rank_from (S k) ids' i with
      | Some p => Some p
      | None => if String.eqb i x then Some (Z.of_nat k + 1) else None
      end
  end.

(** A recipe after a reorder: at the rank of its id when the sequence
    holds it, as it was otherwise. *)
Definition reranked (k : nat) (ids : list mongoose.ObjectId)
    (r : mongoose.Recipe) : mongoose.Recipe :=
  match rank_from k ids (mongoose._id r) with
  | Some p => mongoose.set_position (Some p) r
  | None => r
  end.

(** Two records that differ at most in their position. *)
Definition same_but_position (r r' : mongoose.Recipe) : Prop :=
  mongoose._id r' = mongoose._id r
  /\ mongoose.name r' = mongoose.name r
  /\ mongoose.cuisine r' = mongoose.cuisine r
  /\ mongoose.instructions r' = mongoose.instructions r
  /\ mongoose.ingredients r' = mongoose.ingredients r
  /\ mongoose.image r' = mongoose.image r
  /\ mongoose.prepTimeMinutes r' = mongoose.prepTimeMinutes r
  /\ mongoose.cookTimeMinutes r' = mongoose.cookTimeMinutes r
  /\ mongoose.servings r' = mongoose.servings r
  /\ mongoose.tags r' = mongoose.tags r.

(** The operation the reorder route builds for an id that passed its
    cast. *)
Definition op_of (i : mongoose.ObjectId) (index : nat)
    : mongoose.updateOne mongoose.id_filter :=
  mongoose.UpdateOne (mongoose.Matches i) (Z.of_nat index + 1).

(** *** Updates and storage *)

(** The schema can cast the payload of an update. *)
Definition castable (b : object) : bool :=
  match mongoose.castUpdate b with
  | Ok _ => true
  | Err _ => false
  end.

(** The connection serves the next operation. *)
Definition healthy (e : env) : bool :=
  match mongoose.failing (connection e) with
  | None => true
  | Some _ => false
  end.

(** *** The application *)

(** A request by the route of [server.js] it reaches, with what the route
    reads of it. *)
Inductive call : Type :=
| GET_recipes
| POST_recipes (b : object)
| PUT_recipe (id : string) (b : object)
| POST_reorder (b : object).

(** The application ([app] in the source) serving one call, in the
    environment it finds. *)
Definition application (isURL : string -> bool) (st : mongoose.collection)
    (ec : env * call) : mongoose.collection * response :=
  match ec.2 with
  | GET_recipes => (st, ServerJs.get_api_recipes ec.1 st)
  | POST_recipes b => ServerJs.post_api_recipes isURL ec.1 st (incoming "" b)
  | PUT_recipe id b => ServerJs.put_api_recipes isURL ec.1 st (incoming id b)
  | POST_reorder b => ServerJs.post_api_recipes_reorder ec.1 st (incoming "" b)
  end.

(** *** What the validators leave in the collection *)

(** A text that is not empty and has no whitespace at its ends. *)
Definition trimmed_text (s : string) : bool :=
  negb (validator.isEmpty s) && String.eqb (validator.trim s) s.

(** A record that meets the rules of the validators. *)
Definition validated (isURL : string -> bool) (r : mongoose.Recipe) : bool :=
  trimmed_text (mongoose.name r)
  && trimmed_text (mongoose.cuisine r)
  && trimmed_text (mongoose.instructions r)
  && bool_decide (1 ≤ length (mongoose.ingredients r))%nat
  && trimmed_text (mongoose.image r)
  && isURL (mongoose.image r)
  && (1 <=? mongoose.prepTimeMinutes r)
  && (1 <=? mongoose.cookTimeMinutes r)
  && (1 <=? mongoose.servings r).


(** The recipes an id sequence does not name. *)
Definition unlisted (ids : list mongoose.ObjectId) (r : mongoose.Recipe) : bool :=
  negb (listed ids r).

(** *** Sample values for the examples *)

(** A stand-in for validator.js's [isURL] in the examples: it accepts the
    strings that start with [http://]. *)
Definition sample_isURL (s : string) : bool := String.prefix "http://" s.

(** The payload of the specification's example, with a name and
    ingredients of one's choice. *)
Definition sample_payload (n : json) (ingredients : list json) : object :=
  <["name" := n]>
    (<["cuisine" := JStr "Thai"]>
       (<["instructions" := JStr "x"]>
          (<["ingredients" := JArr ingredients]>
             (<["image" := JStr "http://x.com/i.jpg"]>
                (<["prepTimeMinutes" := JNum 5]>
                   (<["cookTimeMinutes" := JNum 5]>
                      (<["servings" := JNum 2]> ∅))))))).

Definition reorder_payload (ss : list string) : object :=
  <["orderedIds" := JArr (List.map JStr ss)]> ∅.

Definition id_A : mongoose.ObjectId := "aaaaaaaaaaaaaaaaaaaaaaaa".
Definition id_B : mongoose.ObjectId := "bbbbbbbbbbbbbbbbbbbbbbbb".
Definition id_C : mongoose.ObjectId := "cccccccccccccccccccccccc".
Definition id_D : mongoose.ObjectId := "dddddddddddddddddddddddd".

Definition sample_recipe (i : mongoose.ObjectId) (n : string) (p : Z)
    : mongoose.Recipe :=
  mongoose.mkRecipe i n "Thai" "x" [Some "y"] "http://x.com/i.jpg" 5 5 2
    (Some []) (Some p).

Definition recipe_A : mongoose.Recipe := sample_recipe id_A "A" 1700000000001.
Definition recipe_B : mongoose.Recipe := sample_recipe id_B "B" 1700000000002.
Definition recipe_C : mongoose.Recipe := sample_recipe id_C "C" 1700000000003.

Definition sample_env : env := Env 1700000000010 id_D None.


(** Closed goals are settled by evaluation. *)
Ltac by_computation := vm_compute; reflexivity.
Ltac decided := apply (bool_decide_unpack _); vm_compute; exact I.

(** * Properties *)

(** ** The validation middleware *)

Lemma flat_map_agree {A B} (f g : A -> list B) (l : list A) :
  (forall x, x ∈ l -> f x = g x) -> flat_map f l = flat_map g l.
Proof.
  induction l as [| x l IH]; intros H; cbn; [reflexivity |].
  rewrite H by left. rewrite IH; [reflexivity |].
  intros y Hy. apply H. by right.
Qed.

Section Chains.
Import express_validator.

Lemma run_item_spec p it req :
  params_id (run_item p it req) = params_id req
  /\ contexts (run_item p it req)
     = (contexts req ++ stack_violations p [it] (body req !! p))%list
  /\ (forall q, q <> p -> body (run_item p it req) !! q = body req !! q)
  /\ body (run_item p it req) !! p
     = match it with
       | Sanitizer f => Some (sanitize f (body req !! p))
       | _ => body req !! p
       end.
Proof.
  destruct it as [f | f negated m | f m]; cbn.
  - rewrite !app_nil_r, lookup_insert_eq. repeat split; auto.
    intros q Hq. by rewrite lookup_insert_ne.
  - rewrite !app_nil_r. repeat split; auto.
  - rewrite !app_nil_r. repeat split; auto.
Qed.

Lemma run_stack_spec p its : forall req,
  let r := fold_left (fun r it => run_item p it r) its req in
  params_id r = params_id req
  /\ contexts r = (contexts req ++ stack_violations p its (body req !! p))%list
  /\ (forall q, q <> p -> body r !! q = body req !! q).
Proof.
  induction its as [| it its IH]; intros req; cbn zeta.
  - cbn. rewrite app_nil_r. auto.
  - cbn [fold_left].
    destruct (run_item_spec p it req) as (Hid & Hctx & Hother & Hself).
    destruct (IH (run_item p it req)) as (Hid' & Hctx' & Hother').
    split; [congruence |]. split.
    + rewrite Hctx', Hctx, Hself, <- app_assoc. f_equal.
      destruct it; cbn; rewrite ?app_nil_r; reflexivity.
    + intros q Hq. rewrite Hother', Hother; auto.
Qed.

Lemma run_chain_spec c req :
  params_id (run_chain c req) = params_id req
  /\ contexts (run_chain c req)
     = (contexts req
        ++ stack_violations (selector c) (stack c) (body req !! selector c))%list
  /\ (forall q, q <> selector c -> body (run_chain c req) !! q = body req !! q).
Proof. apply run_stack_spec. Qed.

Lemma violations_of_stack c b :
  violations_of c b = stack_violations (selector c) (stack c) (b !! selector c).
Proof.
  unfold violations_of, validationResult.
  destruct (run_chain_spec c (incoming "" b)) as (_ & -> & _). reflexivity.
Qed.

(** Chains over distinct fields do not see each other's sanitizers: the
    violations of the whole array are those of each chain on the payload
    as submitted, in the order of the chains. *)
Lemma run_chains_spec cs : forall req,
  NoDup (List.map selector cs) ->
  params_id (run_chains cs req) = params_id req
  /\ contexts (run_chains cs req)
     = (contexts req ++ flat_map (fun c => violations_of c (body req)) cs)%list
  /\ (forall q, q ∉ List.map selector cs ->
        body (run_chains cs req) !! q = body req !! q).
Proof.
  induction cs as [| c cs IH]; intros req Hnd.
  - cbn. rewrite app_nil_r. auto.
  - apply NoDup_cons in Hnd as [Hc Hnd].
    change (run_chains (c :: cs) req) with (run_chains cs (run_chain c req)).
    destruct (run_chain_spec c req) as (Hid & Hctx & Hother).
    destruct (IH (run_chain c req) Hnd) as (Hid' & Hctx' & Hother').
    split; [congruence |]. split.
    + rewrite Hctx', Hctx, <- app_assoc. f_equal. cbn [flat_map]. f_equal.
      * symmetry. apply violations_of_stack.
      * apply flat_map_agree. intros c' Hc'.
        rewrite !violations_of_stack. f_equal. apply Hother.
        intros Heq. apply Hc. rewrite <- Heq.
        by apply list_elem_of_fmap_2.
    + intros q Hq. rewrite Hother', Hother; auto.
      * intros ->. apply Hq. cbn. left.
      * intros Hin. apply Hq. cbn. by right.
Qed.

End Chains.

Section Rules.
Import express_validator.
Variable isURL : string -> bool.

Lemma recipeValidators_table :
  recipeValidators isURL = List.map (chain_of isURL) field_rules.
Proof. reflexivity. Qed.

Lemma recipeValidators_fields :
  List.map selector (recipeValidators isURL) = List.map rule_field field_rules.
Proof. reflexivity. Qed.

Lemma field_rules_NoDup : NoDup (List.map rule_field field_rules).
Proof. apply (bool_decide_unpack _). vm_compute. exact I. Qed.

Lemma instances_sanitize f v :
  instances (Some (sanitize f v))
  = List.map (fun x => Some (JStr (f (toString x)))) (instances v).
Proof.
  destruct v as [[| | | | l |] |]; cbn; try reflexivity.
  rewrite !List.map_map. reflexivity.
Qed.

Lemma instances_scalar v :
  (forall l, v <> Some (JArr l)) -> instances v = [v].
Proof. destruct v as [[| | | | l |] |]; intros H; try reflexivity. by destruct (H l). Qed.

Lemma no_failure_forallb {A B} (g : A -> B) (P : A -> bool) (l : list A) :
  List.map g (List.filter P l) = [] <-> forallb (fun x => negb (P x)) l = true.
Proof.
  induction l as [| x l IH]; cbn; [tauto |].
  destruct (P x); cbn; [split; discriminate | exact IH].
Qed.

Lemma filter_length_le {A} (P : A -> bool) (l : list A) :
  (length (List.filter P l) <= length l)%nat.
Proof. induction l as [| x l IH]; cbn; [lia |]. destruct (P x); cbn; lia. Qed.

Lemma forallb_agree {A} (P Q : A -> bool) (l : list A) :
  (forall x, P x = Q x) -> forallb P l = forallb Q l.
Proof. intros H. induction l as [| x l IH]; cbn; [reflexivity |]. by rewrite H, IH. Qed.

Lemma forallb_map_agree {A B} (g : A -> B) (P : B -> bool) (Q : A -> bool) l :
  (forall x, P (g x) = Q x) -> forallb P (List.map g l) = forallb Q l.
Proof. intros H. induction l as [| x l IH]; cbn; [reflexivity |]. by rewrite H, IH. Qed.

Lemma chain_reports r b : reports isURL (chain_of isURL r) r b.
Proof.
  destruct r as [f k m]. unfold reports. cbn zeta.
  rewrite violations_of_stack. cbn [chain_of selector stack rule_field rule_kind_of rule_message].
  destruct k as [| n | | min]; cbn [stack_violations trim notEmpty isArray isInt];
    rewrite ?app_nil_r.
  - split; [| split].
    + apply Forall_map, Forall_forall. by intros.
    + rewrite no_failure_forallb, instances_sanitize. cbn [satisfies].
      erewrite forallb_map_agree; [reflexivity |]. by intros x.
    + intros Hs. rewrite length_map.
      etransitivity; [apply filter_length_le |].
      rewrite instances_sanitize, length_map, instances_scalar by done. done.
  - split; [| split].
    + destruct (b !! f) as [[| | | | l |] |]; cbn; try (repeat constructor).
      case_bool_decide; repeat constructor.
    + cbn [satisfies]. destruct (b !! f) as [[| | | | l |] |]; cbn;
        try (split; discriminate).
      case_bool_decide; split; try done.
    + intros _. destruct (b !! f) as [[| | | | l |] |]; cbn; try lia.
      case_bool_decide; cbn; lia.
  - split; [| split].
    + apply Forall_map, Forall_forall. by intros.
    + rewrite no_failure_forallb, instances_sanitize. cbn [satisfies].
      erewrite forallb_map_agree; [reflexivity |]. intros x. cbn.
      by rewrite negb_involutive.
    + intros Hs. rewrite length_map.
      etransitivity; [apply filter_length_le |].
      rewrite instances_sanitize, length_map, instances_scalar by done. done.
  - split; [| split].
    + apply Forall_map, Forall_forall. by intros.
    + rewrite no_failure_forallb. cbn [satisfies].
      erewrite forallb_agree; [reflexivity |]. intros x. cbn.
      by rewrite negb_involutive.
    + intros Hs. rewrite length_map.
      etransitivity; [apply filter_length_le |].
      rewrite instances_scalar by done. done.
Qed.

Lemma validators_spec req :
  let req' := run_chains (recipeValidators isURL) req in
  params_id req' = params_id req
  /\ contexts req'
     = (contexts req
        ++ flat_map (fun c => violations_of c (body req)) (recipeValidators isURL))%list
  /\ (forall q, q ∉ List.map rule_field field_rules -> body req' !! q = body req !! q).
Proof.
  cbn zeta. rewrite <- recipeValidators_fields.
  apply run_chains_spec. rewrite recipeValidators_fields. apply field_rules_NoDup.
Qed.

End Rules.

Section Validation.
Import express_validator.
Variable isURL : string -> bool.


Lemma incoming_violations id b :
  validationResult (run_chains (recipeValidators isURL) (incoming id b))
  = flat_map (fun c => violations_of c b) (recipeValidators isURL).
Proof.
  unfold validationResult.
  destruct (validators_spec isURL (incoming id b)) as (_ & -> & _). reflexivity.
Qed.

Lemma flat_map_nil {A B} (f : A -> list B) (l : list A) :
  flat_map f l = [] <-> forall x, x ∈ l -> f x = [].
Proof.
  induction l as [| x l IH]; cbn.
  - split; [intros _ y Hy; inversion Hy | reflexivity].
  - rewrite app_nil, IH. split.
    + intros [Hx Hl] y Hy. apply elem_of_cons in Hy as [-> |]; auto.
    + intros H. split; [apply H; left | intros y Hy; apply H; by right].
Qed.

Lemma no_violation_iff id b :
  validationResult (run_chains (recipeValidators isURL) (incoming id b)) = []
  <-> forall r, r ∈ field_rules ->
        satisfies isURL (rule_kind_of r) (b !! rule_field r) = true.
Proof.
  rewrite incoming_violations, recipeValidators_table, flat_map_nil. split.
  - intros H r Hr. apply (chain_reports isURL r b). apply H.
    by apply list_elem_of_fmap_2.
  - intros H c Hc. apply list_elem_of_fmap in Hc as (r & -> & Hr).
    apply (chain_reports isURL r b). by apply H.
Qed.


Lemma post_handler_400 e st req :
  validationResult req <> [] ->
  ServerJs.post_api_recipes_handler e st req
  = (st, Response 400 (errors_body (validationResult req))).
Proof.
  unfold ServerJs.post_api_recipes_handler. cbn zeta.
  destruct (validationResult req); [done | reflexivity].
Qed.





End Validation.

(** ** Numbers and their strings *)

Lemma signed_digits_digits d :
  d <> Decimal.Nil ->
  validator.signed_digits (NilZero.string_of_uint d) = Some (Z.of_uint d).
Proof.
  intros Hd. unfold validator.signed_digits.
  pose proof (NilZero.usu d Hd) as Hu.
  destruct d; try contradiction; cbn in *; rewrite Hu; reflexivity.
Qed.

(** The string of an integral number is read back as that number. *)
Lemma signed_digits_decimal n : validator.signed_digits (decimal n) = Some n.
Proof.
  unfold decimal. destruct n as [| p | p].
  - reflexivity.
  - cbn [Z.to_int NilZero.string_of_int].
    rewrite signed_digits_digits by apply DecimalPos.Unsigned.to_uint_nonnil.
    f_equal. exact (DecimalZ.of_to (Z.pos p)).
  - cbn [Z.to_int NilZero.string_of_int]. unfold validator.signed_digits.
    rewrite NilZero.usu by apply DecimalPos.Unsigned.to_uint_nonnil.
    f_equal. exact (DecimalZ.of_to (Z.neg p)).
Qed.

(** On a JSON number the integer rule is the bound itself. *)
Lemma isInt_decimal min n : validator.isInt min (decimal n) = (min <=? n).
Proof. unfold validator.isInt. by rewrite signed_digits_decimal. Qed.

(** ** Creation of a conforming payload *)

Section Create.
Import express_validator mongoose.
Variable isURL : string -> bool.

(** The body after the validators: the four trimmed fields are
    rewritten, everything else is as submitted. *)
Lemma sanitized_body id b :
  body (run_chains (recipeValidators isURL) (incoming id b))
  = <["image" := sanitize validator.trim (b !! "image")]>
      (<["instructions" := sanitize validator.trim (b !! "instructions")]>
         (<["cuisine" := sanitize validator.trim (b !! "cuisine")]>
            (<["name" := sanitize validator.trim (b !! "name")]> b))).
Proof.
  unfold run_chains, run_chain, recipeValidators, incoming.
  cbn [fold_left stack selector run_item trim notEmpty isArray isInt body
       params_id contexts].
  by rewrite !lookup_insert_ne by done.
Qed.






End Create.

(** ** The listing order *)

Section Order.
Import mongoose.

Lemma position_le_refl a : position_le a a = true.
Proof. destruct a; cbn; [apply Z.leb_refl | reflexivity]. Qed.

Lemma position_le_total a b : position_le a b = true \/ position_le b a = true.
Proof. destruct a, b; cbn; auto. rewrite !Z.leb_le. lia. Qed.

Lemma position_le_false a b : position_le a b = false -> position_le b a = true.
Proof. intros H. destruct (position_le_total a b); congruence. Qed.

Lemma position_le_trans a b c :
  position_le a b = true -> position_le b c = true -> position_le a c = true.
Proof. destruct a, b, c; cbn; try done. rewrite !Z.leb_le. lia. Qed.

Lemma position_le_antisym a b :
  position_le a b = true -> position_le b a = true -> a = b.
Proof. destruct a, b; cbn; try done. rewrite !Z.leb_le. intros. f_equal. lia. Qed.

Lemma before_trans : Transitive before.
Proof. intros x y z. apply position_le_trans. Qed.

Lemma sort_cons r l :
  sort_by_position (r :: l) = insert_sorted r (sort_by_position l).
Proof. reflexivity. Qed.

Lemma insert_sorted_perm r l : insert_sorted r l ≡ₚ r :: l.
Proof.
  induction l as [| y l IH]; cbn; [reflexivity |].
  destruct position_le; [reflexivity |].
  rewrite IH. apply Permutation_swap.
Qed.

Lemma sort_perm l : sort_by_position l ≡ₚ l.
Proof.
  induction l as [| r l IH]; [reflexivity |].
  rewrite sort_cons, insert_sorted_perm. by rewrite IH.
Qed.

Lemma insert_sorted_Sorted r l :
  Sorted before l -> Sorted before (insert_sorted r l).
Proof.
  induction 1 as [| y l Hl IH Hy]; cbn.
  - repeat constructor.
  - destruct (position_le (position r) (position y)) eqn:Hle.
    + constructor; [by constructor | by constructor].
    + constructor; [exact IH |].
      destruct l as [| z l]; cbn.
      * constructor. by apply position_le_false.
      * destruct (position_le (position r) (position z)).
        -- constructor. by apply position_le_false.
        -- constructor. by inversion Hy.
Qed.

Lemma sort_Sorted l : Sorted before (sort_by_position l).
Proof.
  induction l as [| r l IH]; [constructor |].
  rewrite sort_cons. by apply insert_sorted_Sorted.
Qed.

Lemma sort_StronglySorted l : StronglySorted before (sort_by_position l).
Proof. apply Sorted_StronglySorted; [exact before_trans | apply sort_Sorted]. Qed.





Lemma list_healthy e st :
  connection e = None ->
  ServerJs.get_api_recipes e st
  = Response 200 (JArr (List.map toJSON (sort_by_position st))).
Proof. unfold ServerJs.get_api_recipes, find_sorted. by intros ->. Qed.

End Order.

(** ** Creation order *)

Section CreationOrder.
Import express_validator mongoose.
Variable isURL : string -> bool.

Lemma existsb_has_id i (st : collection) :
  existsb (has_id i) st = false <-> i ∉ List.map _id st.
Proof.
  induction st as [| r st IH]; cbn.
  - split; [intros _ H; inversion H | reflexivity].
  - rewrite orb_false_iff, IH, not_elem_of_cons. unfold has_id.
    rewrite String.eqb_neq. split; intros [H1 H2]; split; auto.
Qed.





End CreationOrder.

(** ** The bulk write of a reorder *)

Section BulkWrite.
Import express_validator mongoose.

Lemma cast_ops_castObjectId ss ids : forall k,
  mapM hex24 ss = Some ids ->
  cast_ops castObjectId
    (map_from k (fun id index => UpdateOne id (Z.of_nat index + 1))
       (List.map JStr ss))
  = Ok (map_from k op_of ids).
Proof.
  intros k H. apply mapM_Some in H. revert k.
  induction H as [| s i ss ids Hs _ IH]; intros k; [reflexivity |].
  cbn [List.map map_from cast_ops filter_id set_to castObjectId].
  rewrite Hs. cbn [mbind result_bind]. rewrite IH. reflexivity.
Qed.

Lemma cast_ops_new_ObjectId ss ids : forall k,
  mapM hex24 ss = Some ids ->
  cast_ops (fun i => i)
    (map_from k (fun id index => UpdateOne (new_ObjectId id) (Z.of_nat index + 1))
       (List.map JStr ss))
  = Ok (map_from k op_of ids).
Proof.
  intros k H. apply mapM_Some in H. revert k.
  induction H as [| s i ss ids Hs _ IH]; intros k; [reflexivity |].
  cbn [List.map map_from cast_ops filter_id set_to new_ObjectId].
  rewrite Hs. cbn [mbind result_bind]. rewrite IH. reflexivity.
Qed.

Lemma update_first_map i f (st : collection) :
  NoDup (List.map _id st) ->
  update_first i f st = List.map (fun r => if has_id i r then f r else r) st.
Proof.
  induction st as [| r st IH]; intros Hnd; [reflexivity |].
  cbn [List.map] in Hnd. apply NoDup_cons in Hnd as [Hr Hnd].
  cbn [update_first List.map]. destruct (has_id i r) eqn:Hi.
  - f_equal. symmetry. etransitivity; [| apply map_id].
    apply map_ext_in. intros r' Hr'.
    destruct (has_id i r') eqn:Hi'; [| reflexivity].
    exfalso. apply Hr. unfold has_id in *.
    apply String.eqb_eq in Hi, Hi'. rewrite Hi, <- Hi'.
    apply list_elem_of_fmap_2. by apply list_elem_of_In.
  - f_equal. by apply IH.
Qed.

Lemma set_position_id p r : _id (set_position p r) = _id r.
Proof. reflexivity. Qed.

Lemma set_position_twice p q r :
  set_position p (set_position q r) = set_position p r.
Proof. reflexivity. Qed.

Lemma reranked_id k ids r : _id (reranked k ids r) = _id r.
Proof. unfold reranked. by destruct rank_from. Qed.

Lemma reranked_ids k ids (st : collection) :
  List.map _id (List.map (reranked k ids) st) = List.map _id st.
Proof. rewrite List.map_map. apply map_ext. intros r. apply reranked_id. Qed.

(** With a healthy connection the batch leaves every recipe at the rank
    of its id. *)
Lemma execute_reranks ids : forall k (st : collection),
  NoDup (List.map _id st) ->
  execute None (map_from k op_of ids) st = (List.map (reranked k ids) st, None).
Proof.
  induction ids as [| x ids IH]; intros k st Hnd.
  - cbn. f_equal. symmetry. etransitivity; [| apply map_id].
    by apply map_ext.
  - cbn [map_from execute failing after_one].
    change (apply_op (op_of x k) st)
      with (update_first x (set_position (Some (Z.of_nat k + 1))) st).
    rewrite update_first_map by done.
    rewrite IH.
    + f_equal. rewrite List.map_map. apply map_ext. intros r.
      unfold reranked. cbn [rank_from].
      unfold has_id.
      destruct (String.eqb (_id r) x) eqn:Hx.
      * rewrite set_position_id.
        destruct (rank_from (S k) ids (_id r)); [| reflexivity].
        apply set_position_twice.
      * by destruct (rank_from (S k) ids (_id r)).
    + rewrite List.map_map. erewrite map_ext; [exact Hnd |].
      intros r. cbn beta. by destruct (has_id x r).
Qed.

End BulkWrite.

(** ** Ranks and the listing after a reorder *)

Section Ranks.
Import mongoose.

Lemma rank_from_lower ids : forall k i p,
  rank_from k ids i = Some p -> Z.of_nat k + 1 <= p.
Proof.
  induction ids as [| x ids IH]; intros k i p; cbn; [discriminate |].
  destruct (rank_from (S k) ids i) as [q |] eqn:Hq.
  - intros [= <-]. apply IH in Hq. lia.
  - destruct (String.eqb i x); intros [= <-]. lia.
Qed.

Lemma rank_from_None ids : forall k i, i ∉ ids -> rank_from k ids i = None.
Proof.
  induction ids as [| x ids IH]; intros k i Hi; [reflexivity |].
  apply not_elem_of_cons in Hi as [Hx Hi]. cbn.
  rewrite IH by done. apply String.eqb_neq in Hx. by rewrite Hx.
Qed.

Lemma rank_from_Some ids : forall k i, i ∈ ids -> is_Some (rank_from k ids i).
Proof.
  induction ids as [| x ids IH]; intros k i Hi; [inversion Hi |]. cbn.
  destruct (rank_from (S k) ids i) eqn:Hr; [by eexists |].
  apply elem_of_cons in Hi as [-> | Hi].
  - rewrite String.eqb_refl. by eexists.
  - destruct (IH (S k) i Hi) as [p Hp]. congruence.
Qed.

Lemma rank_from_tail k x ids i :
  i ∈ ids -> rank_from k (x :: ids) i = rank_from (S k) ids i.
Proof. intros Hi. cbn. by destruct (rank_from_Some ids (S k) i Hi) as [p ->]. Qed.

Lemma rank_from_head k x ids :
  x ∉ ids -> rank_from k (x :: ids) x = Some (Z.of_nat k + 1).
Proof. intros Hx. cbn. by rewrite rank_from_None, String.eqb_refl. Qed.

(** In a sequence without repetition two ids never share a rank. *)
Lemma rank_from_inj ids : forall k i j p,
  rank_from k ids i = Some p -> rank_from k ids j = Some p -> i = j.
Proof.
  induction ids as [| x ids IH]; intros k i j p; cbn; [discriminate |].
  destruct (rank_from (S k) ids i) as [pi |] eqn:Hi;
    destruct (rank_from (S k) ids j) as [pj |] eqn:Hj.
  - intros [= <-] [= <-]. by eapply IH.
  - intros [= <-]. destruct (String.eqb j x); intros [= Hp].
    apply rank_from_lower in Hi. lia.
  - destruct (String.eqb i x); intros [= Hp] [= <-].
    apply rank_from_lower in Hj. lia.
  - destruct (String.eqb i x) eqn:Hix; [intros _ | discriminate].
    destruct (String.eqb j x) eqn:Hjx; [intros _ | discriminate].
    apply String.eqb_eq in Hix, Hjx. congruence.
Qed.

Lemma find_by_id_Some i (st : collection) r :
  find_by_id i st = Some r -> r ∈ st /\ _id r = i.
Proof.
  intros H. apply find_some in H as [Hin Hid].
  split; [by apply list_elem_of_In | by apply String.eqb_eq].
Qed.

Lemma find_by_id_None i (st : collection) :
  find_by_id i st = None -> i ∉ List.map _id st.
Proof.
  intros H Hin. apply list_elem_of_fmap in Hin as (r & -> & Hr).
  apply list_elem_of_In in Hr.
  pose proof (find_none _ _ H r Hr) as Hf. unfold has_id in Hf.
  by rewrite String.eqb_refl in Hf.
Qed.

Lemma same_id_same_record (st : collection) r1 r2 :
  NoDup (List.map _id st) -> r1 ∈ st -> r2 ∈ st -> _id r1 = _id r2 -> r1 = r2.
Proof.
  induction st as [| r st IH]; intros Hnd H1 H2 Heq; [inversion H1 |].
  cbn in Hnd. apply NoDup_cons in Hnd as [Hr Hnd].
  apply elem_of_cons in H1 as [-> | H1]; apply elem_of_cons in H2 as [-> | H2].
  - reflexivity.
  - exfalso. apply Hr. rewrite Heq. by apply list_elem_of_fmap_2.
  - exfalso. apply Hr. rewrite <- Heq. by apply list_elem_of_fmap_2.
  - by apply IH.
Qed.

Lemma find_by_id_elem (st : collection) r :
  NoDup (List.map _id st) -> r ∈ st -> find_by_id (_id r) st = Some r.
Proof.
  intros Hnd Hr. destruct (find_by_id (_id r) st) as [r' |] eqn:Hf.
  - apply find_by_id_Some in Hf as [Hin Hid]. f_equal.
    by apply (same_id_same_record st).
  - apply find_by_id_None in Hf. exfalso. apply Hf.
    by apply list_elem_of_fmap_2.
Qed.

Lemma position_reranked k ids r :
  _id r ∈ ids -> position (reranked k ids r) = rank_from k ids (_id r).
Proof.
  intros Hr. unfold reranked.
  by destruct (rank_from_Some ids k (_id r) Hr) as [p ->].
Qed.

Lemma placed_from_lower st ids : forall k,
  Forall (fun r => exists p, position r = Some p /\ Z.of_nat k + 1 <= p)
    (placed_from k st ids).
Proof.
  induction ids as [| i ids IH]; intros k; cbn [placed_from]; [constructor |].
  apply Forall_app. split.
  - destruct (bool_decide (i ∈ ids)), (find_by_id i st); repeat constructor.
    exists (Z.of_nat k + 1). split; [reflexivity | lia].
  - eapply Forall_impl; [apply IH |]. intros r (p & Hp & Hle).
    exists p. split; [done | lia].
Qed.

Lemma placed_from_sorted st ids : forall k,
  StronglySorted before (placed_from k st ids).
Proof.
  induction ids as [| i ids IH]; intros k; cbn [placed_from]; [constructor |].
  destruct (bool_decide (i ∈ ids)), (find_by_id i st) as [r |]; cbn [app];
    try apply IH.
  constructor; [apply IH |].
  eapply Forall_impl; [apply (placed_from_lower st ids (S k)) |].
  intros r' (p & Hp & Hle). unfold before. rewrite Hp. cbn.
  apply Z.leb_le. lia.
Qed.

Lemma elem_of_lasts ids i : i ∈ lasts ids <-> i ∈ ids.
Proof.
  induction ids as [| x ids IH]; [reflexivity |]. cbn [lasts].
  case_bool_decide as Hx.
  - rewrite IH, elem_of_cons. split; [by right |]. by intros [-> |].
  - by rewrite !elem_of_cons, IH.
Qed.

Lemma NoDup_lasts ids : NoDup (lasts ids).
Proof.
  induction ids as [| x ids IH]; [constructor |]. cbn [lasts].
  case_bool_decide as Hx; [exact IH |].
  constructor; [by rewrite elem_of_lasts | exact IH].
Qed.

Lemma lasts_NoDup ids : NoDup ids -> lasts ids = ids.
Proof.
  induction 1 as [| x ids Hx _ IH]; [reflexivity |]. cbn [lasts].
  by rewrite bool_decide_eq_false_2, IH.
Qed.

Lemma lasts_filter (f : ObjectId -> bool) ids :
  lasts (List.filter f ids) = List.filter f (lasts ids).
Proof.
  induction ids as [| x ids IH]; [reflexivity |]. cbn [List.filter lasts].
  destruct (f x) eqn:Hf.
  - cbn [lasts]. rewrite IH.
    rewrite (bool_decide_ext (x ∈ List.filter f ids) (x ∈ ids)).
    + case_bool_decide; cbn [List.filter]; by rewrite ?Hf.
    + rewrite list_elem_of_In, filter_In, <- list_elem_of_In. tauto.
  - rewrite IH. case_bool_decide; cbn [List.filter]; by rewrite ?Hf.
Qed.

Lemma placed_from_ids (st : collection) ids : forall k,
  List.map _id (placed_from k st ids) = known st (lasts ids).
Proof.
  induction ids as [| i ids IH]; intros k; [reflexivity |].
  cbn [placed_from lasts]. rewrite map_app, IH.
  case_bool_decide as Hi; [reflexivity |].
  unfold known. cbn [List.filter].
  destruct (find_by_id i st) as [r |] eqn:Hf.
  - apply find_by_id_Some in Hf as [Hin <-].
    rewrite bool_decide_eq_true_2 by by apply list_elem_of_fmap_2.
    reflexivity.
  - apply find_by_id_None in Hf. by rewrite bool_decide_eq_false_2.
Qed.

Lemma placed_from_reranked (st : collection) ids : forall k r',
  r' ∈ placed_from k st ids ->
  exists r, r ∈ st /\ _id r ∈ ids /\ r' = reranked k ids r.
Proof.
  induction ids as [| i ids IH]; intros k r' Hr'; [inversion Hr' |].
  cbn [placed_from] in Hr'. apply elem_of_app in Hr' as [Hr' | Hr'].
  - case_bool_decide as Hi; [inversion Hr' |].
    destruct (find_by_id i st) as [r |] eqn:Hf; [| inversion Hr'].
    apply list_elem_of_singleton in Hr' as ->.
    apply find_by_id_Some in Hf as [Hin <-].
    exists r. split; [done |]. split; [left |].
    unfold reranked. by rewrite rank_from_head.
  - destruct (IH (S k) r' Hr') as (r & Hin & Hid & ->).
    exists r. split; [done |]. split; [by right |].
    unfold reranked. by rewrite rank_from_tail.
Qed.

Lemma reranked_placed (st : collection) ids : forall k r,
  NoDup (List.map _id st) ->
  r ∈ st -> _id r ∈ ids -> reranked k ids r ∈ placed_from k st ids.
Proof.
  induction ids as [| i ids IH]; intros k r Hst Hr Hid; [inversion Hid |].
  cbn [placed_from]. apply elem_of_app.
  destruct (decide (_id r ∈ ids)) as [Hin | Hout].
  - right. unfold reranked. rewrite rank_from_tail by done. by apply IH.
  - left. apply elem_of_cons in Hid as [Heq | ?]; [| done].
    assert (Hi : i ∉ ids) by by rewrite <- Heq.
    rewrite bool_decide_eq_false_2 by done.
    rewrite <- Heq, find_by_id_elem by done.
    apply list_elem_of_singleton. unfold reranked.
    rewrite Heq, rank_from_head by done. reflexivity.
Qed.

Lemma StronglySorted_filter {A} (R : relation A) (f : A -> bool) l :
  StronglySorted R l -> StronglySorted R (List.filter f l).
Proof.
  induction 1 as [| x l Hl IH Hx]; cbn; [constructor |].
  destruct (f x); [| exact IH].
  constructor; [exact IH |].
  apply Forall_forall. intros y Hy.
  apply list_elem_of_In, filter_In in Hy as [Hy _].
  rewrite Forall_forall in Hx. by apply Hx, list_elem_of_In.
Qed.

Lemma NoDup_bfilter {A} (f : A -> bool) (l : list A) :
  NoDup l -> NoDup (List.filter f l).
Proof. rewrite !NoDup_ListNoDup. apply List.NoDup_filter. Qed.

(** After a reorder the recipes the sequence names are listed in the
    order of the sequence. *)
Lemma listed_after_reorder (st : collection) ids :
  NoDup (List.map _id st) ->
  List.filter (listed ids) (sort_by_position (List.map (reranked 0 ids) st))
  = placed st ids.
Proof.
  intros Hst. set (st' := List.map (reranked 0 ids) st).
  assert (Hst' : NoDup st').
  { apply (NoDup_fmap_1 _id). unfold st'.
    change (NoDup (List.map _id (List.map (reranked 0 ids) st))).
    by rewrite reranked_ids. }
  assert (Hmem : forall x,
             x ∈ List.filter (listed ids) (sort_by_position st')
             <-> x ∈ placed st ids).
  { intros x. rewrite list_elem_of_In, filter_In, <- list_elem_of_In.
    rewrite sort_perm. split.
    - intros [Hx Hl]. unfold st' in Hx.
      apply list_elem_of_fmap in Hx as (r & -> & Hr).
      unfold listed in Hl. apply bool_decide_eq_true in Hl.
      rewrite reranked_id in Hl. by apply reranked_placed.
    - intros Hx.
      apply placed_from_reranked in Hx as (r & Hr & Hid & ->).
      split; [by apply list_elem_of_fmap_2 |].
      unfold listed. apply bool_decide_eq_true. by rewrite reranked_id. }
  apply (StronglySorted_unique_strong before).
  - intros x1 x2 H1 H2 H12 H21.
    apply Hmem in H1.
    apply placed_from_reranked in H1 as (r1 & Hr1 & Hid1 & ->).
    apply placed_from_reranked in H2 as (r2 & Hr2 & Hid2 & ->).
    unfold before in H12, H21.
    pose proof (position_le_antisym _ _ H12 H21) as Heq.
    rewrite !position_reranked in Heq by done.
    destruct (rank_from_Some ids 0 (_id r1) Hid1) as [p Hp].
    rewrite Hp in Heq. symmetry in Heq.
    pose proof (rank_from_inj ids 0 _ _ p Hp Heq) as Hids.
    by rewrite (same_id_same_record st r1 r2).
  - apply StronglySorted_filter, sort_StronglySorted.
  - apply placed_from_sorted.
  - apply NoDup_Permutation; [| | exact Hmem].
    + apply NoDup_bfilter. by rewrite sort_perm.
    + apply (NoDup_fmap_1 _id).
      change (NoDup (List.map _id (placed_from 0 st ids))).
      rewrite placed_from_ids. apply NoDup_bfilter, NoDup_lasts.
Qed.

End Ranks.

(** ** The reorder route *)

Section Reorder.
Import express_validator mongoose.

Lemma rank_from_lookup ids : forall k j i,
  NoDup ids -> ids !! j = Some i ->
  rank_from k ids i = Some (Z.of_nat (k + j) + 1).
Proof.
  induction ids as [| x ids IH]; intros k j i Hnd Hj; [discriminate |].
  apply NoDup_cons in Hnd as [Hx Hnd]. destruct j as [| j].
  - injection Hj as ->. rewrite rank_from_head by done. do 3 f_equal. lia.
  - cbn in Hj. rewrite rank_from_tail by by eapply list_elem_of_lookup_2.
    rewrite (IH (S k) j) by done. do 3 f_equal. lia.
Qed.

Lemma filter_all {A} (f : A -> bool) (l : list A) :
  (forall x, x ∈ l -> f x = true) -> List.filter f l = l.
Proof.
  induction l as [| x l IH]; intros H; cbn; [reflexivity |].
  rewrite H by left. f_equal. apply IH. intros y Hy. apply H. by right.
Qed.

Lemma filter_agree {A} (f g : A -> bool) (l : list A) :
  (forall x, x ∈ l -> f x = g x) -> List.filter f l = List.filter g l.
Proof.
  induction l as [| x l IH]; intros H; cbn; [reflexivity |].
  rewrite H by left. rewrite IH; [reflexivity |].
  intros y Hy. apply H. by right.
Qed.

(** A reorder by well-formed ids over a healthy connection, in
    [server.js]. *)
Lemma reorder_healthy e (st : collection) id (b : object) ss ids :
  connection e = None -> NoDup (List.map _id st) ->
  b !! "orderedIds" = Some (JArr (List.map JStr ss)) ->
  mapM hex24 ss = Some ids ->
  ServerJs.post_api_recipes_reorder e st (incoming id b)
  = (List.map (reranked 0 ids) st,
     Response 200 (message_body "Recipes reordered successfully")).
Proof.
  intros He Hst Hb Hss. unfold ServerJs.post_api_recipes_reorder, incoming.
  cbn [body]. rewrite Hb. unfold bulkWrite, bulkUpdates.
  rewrite (cast_ops_castObjectId ss ids) by done.
  rewrite He, execute_reranks by done. reflexivity.
Qed.

(** The same request in the later variants. *)
Lemma reorder_healthy_variant e (st : collection) id (b : object) ss ids :
  connection e = None -> NoDup (List.map _id st) ->
  b !! "orderedIds" = Some (JArr (List.map JStr ss)) ->
  mapM hex24 ss = Some ids ->
  ServerVariant.post_api_recipes_reorder e st (incoming id b)
  = (List.map (reranked 0 ids) st,
     Response 200 (message_body "Recipes reordered successfully")).
Proof.
  intros He Hst Hb Hss. unfold ServerVariant.post_api_recipes_reorder, incoming.
  cbn [body]. rewrite Hb. unfold bulkWrite, bulkUpdates.
  rewrite (cast_ops_new_ObjectId ss ids) by done.
  rewrite He, execute_reranks by done. reflexivity.
Qed.

Lemma known_all (st : collection) ids :
  (forall i, i ∈ ids -> i ∈ List.map _id st) -> known st ids = ids.
Proof.
  intros H. apply filter_all. intros i Hi. apply bool_decide_eq_true. by apply H.
Qed.

Lemma known_lasts_known (st : collection) ids :
  known st (lasts (known st ids)) = known st (lasts ids).
Proof.
  unfold known at 2. rewrite lasts_filter.
  apply filter_all. intros i Hi.
  by apply list_elem_of_In, filter_In in Hi as [_ Hi].
Qed.

(** C1. A reorder by a sequence of the ids of stored recipes, each id
    once, is answered 200 and puts every recipe of the sequence at the
    1-based index of its id; the list then shows these recipes in the
    submitted order, and shows exactly them when the collection holds no
    other recipe. *)
Theorem reorder_then_list_in_submitted_order
    (e e' : env) (st : collection) (id : string) (b : object)
    (ss : list string) (ids : list ObjectId) :
  connection e = None -> connection e' = None ->
  NoDup (List.map _id st) ->
  b !! "orderedIds" = Some (JArr (List.map JStr ss)) ->
  mapM hex24 ss = Some ids -> NoDup ids ->
  (forall i, i ∈ ids -> i ∈ List.map _id st) ->
  let out := ServerJs.post_api_recipes_reorder e st (incoming id b) in
  status out.2 = 200
  /\ (forall k i, ids !! k = Some i ->
        exists r, r ∈ out.1 /\ _id r = i /\ position r = Some (Z.of_nat k + 1))
  /\ List.filter (listed ids) (sort_by_position out.1) = placed st ids
  /\ List.map _id (placed st ids) = ids
  /\ ((forall r, r ∈ st -> _id r ∈ ids) ->
      ServerJs.get_api_recipes e' out.1
      = Response 200 (JArr (List.map toJSON (placed st ids)))).
Proof.
  intros He He' Hst Hb Hss Hnd Hknown. cbn zeta.
  rewrite (reorder_healthy e st id b ss ids) by done. cbn [fst snd status].
  split; [reflexivity |]. split; [| split; [| split]].
  - intros k i Hk.
    assert (Hi : i ∈ List.map _id st) by by eapply Hknown, list_elem_of_lookup_2.
    apply list_elem_of_fmap in Hi as (r & -> & Hr).
    exists (reranked 0 ids r). split; [by apply list_elem_of_fmap_2 |].
    split; [apply reranked_id |].
    rewrite position_reranked by by eapply list_elem_of_lookup_2.
    by rewrite (rank_from_lookup ids 0 k).
  - by apply listed_after_reorder.
  - unfold placed. rewrite placed_from_ids, lasts_NoDup by done.
    by apply known_all.
  - intros Hall. rewrite list_healthy by done. do 3 f_equal.
    rewrite <- (listed_after_reorder st ids) by done.
    symmetry. apply filter_all. intros x Hx. rewrite sort_perm in Hx.
    apply list_elem_of_fmap in Hx as (r & -> & Hr).
    unfold listed. apply bool_decide_eq_true. rewrite reranked_id. by apply Hall.
Qed.

Lemma cast_ops_malformed l : forall k s,
  JStr s ∈ l -> hex24 s = None ->
  exists m,
    cast_ops castObjectId
      (map_from k (fun id index => UpdateOne id (Z.of_nat index + 1)) l)
    = Err m.
Proof.
  induction l as [| v l IH]; intros k s Hin Hs; [inversion Hin |].
  cbn [map_from cast_ops filter_id set_to].
  apply elem_of_cons in Hin as [<- | Hin].
  - cbn [castObjectId]. rewrite Hs. by eexists.
  - destruct (castObjectId v); cbn [mbind result_bind]; [| by eexists].
    destruct (IH (S k) s Hin Hs) as [m ->]. by eexists.
Qed.

Lemma cast_ops_malformed_variant l : forall k s,
  JStr s ∈ l -> hex24 s = None ->
  exists m,
    cast_ops (fun i => i)
      (map_from k (fun id index => UpdateOne (new_ObjectId id) (Z.of_nat index + 1)) l)
    = Err m.
Proof.
  induction l as [| v l IH]; intros k s Hin Hs; [inversion Hin |].
  cbn [map_from cast_ops filter_id set_to].
  apply elem_of_cons in Hin as [<- | Hin].
  - cbn [new_ObjectId]. rewrite Hs. by eexists.
  - destruct (new_ObjectId v); cbn [mbind result_bind]; [| by eexists].
    destruct (IH (S k) s Hin Hs) as [m ->]. by eexists.
Qed.

(** A sequence that holds a string that is no id fails as a whole, before
    anything is written. *)
Lemma reorder_malformed e (st : collection) id (b : object) l s :
  b !! "orderedIds" = Some (JArr l) -> JStr s ∈ l -> hex24 s = None ->
  ServerJs.post_api_recipes_reorder e st (incoming id b)
  = (st, Response 500 (message_body "Server error"))
  /\ exists m,
       ServerVariant.post_api_recipes_reorder e st (incoming id b)
       = (st, Response 500 (message_error_body "Failed to reorder recipes" m)).
Proof.
  intros Hb Hin Hs. split.
  - unfold ServerJs.post_api_recipes_reorder, incoming. cbn [body]. rewrite Hb.
    unfold bulkWrite, bulkUpdates.
    by destruct (cast_ops_malformed l 0%nat s Hin Hs) as [m ->].
  - unfold ServerVariant.post_api_recipes_reorder, incoming. cbn [body]. rewrite Hb.
    unfold bulkWrite, bulkUpdates.
    destruct (cast_ops_malformed_variant l 0%nat s Hin Hs) as [m ->]. by eexists.
Qed.

(** C5. Ids that no stored recipe has, when they are well-formed, raise
    no error: the reorder is answered 200 (in [server.js] and in the
    variants alike), the recipes the sequence does not name stay as they
    are, and the named recipes are listed in the order in which the
    sequence names its known ids, which is their order after a reorder by
    the known ids alone.  A sequence that holds a string that is no id is
    answered 500 instead, with nothing written. *)
Theorem reorder_ignores_unknown_ids
    (e : env) (st : collection) (id : string) (b b' : object)
    (ss ss' : list string) (ids : list ObjectId) :
  connection e = None ->
  NoDup (List.map _id st) ->
  b !! "orderedIds" = Some (JArr (List.map JStr ss)) ->
  mapM hex24 ss = Some ids ->
  b' !! "orderedIds" = Some (JArr (List.map JStr ss')) ->
  mapM hex24 ss' = Some (known st ids) ->
  let out := ServerJs.post_api_recipes_reorder e st (incoming id b) in
  let out' := ServerJs.post_api_recipes_reorder e st (incoming id b') in
  status out.2 = 200
  /\ ServerVariant.post_api_recipes_reorder e st (incoming id b) = out
  /\ (forall r, r ∈ st -> _id r ∉ ids -> r ∈ out.1)
  /\ List.map _id (List.filter (listed ids) (sort_by_position out.1))
     = known st (lasts ids)
  /\ List.map _id (List.filter (listed ids) (sort_by_position out'.1))
     = List.map _id (List.filter (listed ids) (sort_by_position out.1))
  /\ (forall b0 l s,
        b0 !! "orderedIds" = Some (JArr l) -> JStr s ∈ l -> hex24 s = None ->
        ServerJs.post_api_recipes_reorder e st (incoming id b0)
        = (st, Response 500 (message_body "Server error"))
        /\ exists m,
             ServerVariant.post_api_recipes_reorder e st (incoming id b0)
             = (st, Response 500
                      (message_error_body "Failed to reorder recipes" m))).
Proof.
  intros He Hst Hb Hss Hb' Hss'. cbn zeta.
  rewrite (reorder_healthy_variant e st id b ss ids) by done.
  rewrite (reorder_healthy e st id b ss ids) by done.
  rewrite (reorder_healthy e st id b' ss' (known st ids)) by done.
  cbn [fst snd status].
  assert (Hout : List.map _id (List.filter (listed ids)
                   (sort_by_position (List.map (reranked 0 ids) st)))
                 = known st (lasts ids)).
  { rewrite listed_after_reorder by done. apply placed_from_ids. }
  split; [reflexivity |]. split; [reflexivity |].
  split; [| split; [| split]]; [| | | intros b0 l s; apply reorder_malformed].
  - intros r Hr Hid. apply list_elem_of_fmap. exists r. split; [| done].
    unfold reranked. by rewrite rank_from_None.
  - exact Hout.
  - rewrite Hout.
    rewrite (filter_agree (listed ids) (listed (known st ids))).
    + rewrite listed_after_reorder by done.
      unfold placed. rewrite placed_from_ids. apply known_lasts_known.
    + intros x Hx. rewrite sort_perm in Hx.
      apply list_elem_of_fmap in Hx as (r & -> & Hr).
      unfold listed. rewrite reranked_id.
      apply bool_decide_ext. unfold known. split.
      * intros Hin. apply list_elem_of_In, filter_In.
        split; [by apply list_elem_of_In |].
        apply bool_decide_eq_true. by apply list_elem_of_fmap_2.
      * intros Hin. apply list_elem_of_In, filter_In in Hin as [Hin _].
        by apply list_elem_of_In.
Qed.

(** *** The frame of a reorder *)

Lemma same_but_position_erased (l l' : collection) :
  List.map (set_position None) l' = List.map (set_position None) l ->
  Forall2 same_but_position l l'.
Proof.
  revert l'. induction l as [| r l IH]; intros [| r' l'] H; try discriminate;
    constructor.
  - injection H as E1 E2 E3 E4 E5 E6 E7 E8 E9 E10 _. by repeat split.
  - apply IH. injection H as _ _ _ _ _ _ _ _ _ _ Hl. exact Hl.
Qed.

Lemma update_first_erased i p (st : collection) :
  List.map (set_position None) (update_first i (set_position p) st)
  = List.map (set_position None) st.
Proof.
  induction st as [| r st IH]; [reflexivity |]. cbn [update_first].
  destruct (has_id i r); cbn [List.map]; [reflexivity | by rewrite IH].
Qed.

Lemma execute_erased ops : forall flt (st : collection),
  List.map (set_position None) (execute flt ops st).1
  = List.map (set_position None) st.
Proof.
  induction ops as [| op ops IH]; intros flt st; [reflexivity |].
  cbn [execute]. destruct (failing flt); [reflexivity |].
  rewrite IH. unfold apply_op. destruct (filter_id op); [| reflexivity].
  apply update_first_erased.
Qed.

Lemma bulkWrite_erased {I} (cast : I -> result id_filter) flt
    (st : collection) ops :
  List.map (set_position None) (bulkWrite cast flt st ops).1
  = List.map (set_position None) st.
Proof.
  unfold bulkWrite. destruct (cast_ops cast ops); [| reflexivity].
  apply execute_erased.
Qed.

Lemma reorder_erased e (st : collection) req :
  List.map (set_position None) (ServerJs.post_api_recipes_reorder e st req).1
  = List.map (set_position None) st.
Proof.
  unfold ServerJs.post_api_recipes_reorder.
  destruct (body req !! "orderedIds") as [[| | | | l |] |]; try reflexivity.
  pose proof (bulkWrite_erased castObjectId (connection e) st
                (bulkUpdates (fun id => id) l)) as H.
  by destruct bulkWrite as [st' [m |]].
Qed.

Lemma reorder_erased_variant e (st : collection) req :
  List.map (set_position None) (ServerVariant.post_api_recipes_reorder e st req).1
  = List.map (set_position None) st.
Proof.
  unfold ServerVariant.post_api_recipes_reorder.
  destruct (body req !! "orderedIds") as [[| | | | l |] |]; try reflexivity.
  pose proof (bulkWrite_erased (fun i => i) (connection e) st
                (bulkUpdates new_ObjectId l)) as H.
  by destruct bulkWrite as [st' [m |]].
Qed.

(** C8. Whatever the request and the state of the connection, a reorder
    leaves the collection with the same recipes in the same places, each
    with the id, name, cuisine, instructions, ingredients, image, times,
    servings and tags it had: the position is all it writes.  This holds
    of [server.js] and of the variants. *)
Theorem reorder_writes_position_only
    (e : env) (st : collection) (req : request) :
  Forall2 same_but_position st (ServerJs.post_api_recipes_reorder e st req).1
  /\ Forall2 same_but_position st (ServerVariant.post_api_recipes_reorder e st req).1.
Proof.
  split; apply same_but_position_erased;
    [apply reorder_erased | apply reorder_erased_variant].
Qed.

End Reorder.

(** ** Update, storage errors, round trip *)

Section Update.
Import express_validator mongoose.
Variable isURL : string -> bool.




(** C9 and C10 rest on what a created payload is stored as. *)
Lemma new_Recipe_id now fresh b doc :
  new_Recipe now fresh b = Ok doc -> _id doc = fresh.
Proof.
  unfold new_Recipe. intros H.
  repeat match type of H with
         | (?m ≫= _) = Ok _ =>
             destruct m; cbn [mbind result_bind] in H; [| discriminate]
         end.
  by injection H as <-.
Qed.









End Update.

(** ** Storage errors of the list route *)

(** C6. When the store fails a list request, the variants answer 500 with
    a message and the detail of the error, [server.js] with the message
    [Server error] alone; these are the only 500 answers of the route. *)
Theorem list_failure_bodies
    (t : Z) (g : mongoose.ObjectId) (m : string) (st : mongoose.collection) :
  let e := Env t g (Some (0%nat, m)) in
  ServerVariant.get_api_recipes e st
  = Response 500 (JObj [("message", JStr "Failed to fetch recipes");
                        ("error", JStr m)])
  /\ ServerJs.get_api_recipes e st
     = Response 500 (JObj [("message", JStr "Server error")])
  /\ (forall e', status (ServerVariant.get_api_recipes e' st) = 500 ->
        healthy e' = false)
  /\ (forall e', status (ServerJs.get_api_recipes e' st) = 500 ->
        healthy e' = false).
Proof.
  cbn zeta. split; [reflexivity |]. split; [reflexivity |].
  split; intros e';
    unfold ServerVariant.get_api_recipes, ServerJs.get_api_recipes,
      mongoose.find_sorted, healthy;
    destruct (mongoose.failing (connection e')); cbn; congruence.
Qed.

(** ** The ids of the collection stay unique *)

Section UniqueIds.
Import express_validator mongoose.

Lemma set_path_id {A} (b : object) p (cast : json -> result A) set f :
  (forall a r, _id (set a r) = _id r) ->
  set_path b p cast set = Ok f -> forall r, _id (f r) = _id r.
Proof.
  intros Hset. unfold set_path. destruct (b !! p) as [v |].
  - destruct (cast v); cbn [mbind result_bind]; [| discriminate].
    intros [= <-] r. apply Hset.
  - by intros [= <-] r.
Qed.

Lemma castUpdate_id b f : castUpdate b = Ok f -> forall r, _id (f r) = _id r.
Proof.
  unfold castUpdate. intros H r.
  repeat match type of H with
         | (?m ≫= _) = Ok _ =>
             let E := fresh "E" in
             destruct m eqn:E; cbn [mbind result_bind] in H; [| discriminate]
         end.
  injection H as <-.
  repeat match goal with
         | E : set_path ?b ?p ?cast ?set = Ok ?g |- _ =>
             pose proof (set_path_id b p cast set g (fun _ _ => eq_refl) E);
             clear E
         end.
  repeat match goal with
         | E : forall r, _id (_ r) = _id r |- _ => rewrite E
         end.
  reflexivity.
Qed.

Lemma update_first_ids i f (st : collection) :
  (forall r, _id (f r) = _id r) ->
  List.map _id (update_first i f st) = List.map _id st.
Proof.
  intros Hf. induction st as [| r st IH]; [reflexivity |]. cbn [update_first].
  destruct (has_id i r); cbn [List.map]; [by rewrite Hf | by rewrite IH].
Qed.

Lemma erased_ids (st st' : collection) :
  List.map (set_position None) st' = List.map (set_position None) st ->
  List.map _id st' = List.map _id st.
Proof.
  intros H. apply (f_equal (List.map _id)) in H.
  by rewrite !List.map_map in H.
Qed.

(** No route of [server.js] gives two recipes the same id: a creation is
    refused when the generated id is taken, and updates and reorders keep
    the ids. *)
Lemma ids_stay_unique (e : env) (st : collection) (req : request) :
  NoDup (List.map _id st) ->
  NoDup (List.map _id (ServerJs.post_api_recipes_handler e st req).1)
  /\ NoDup (List.map _id (ServerJs.put_api_recipes_handler e st req).1)
  /\ NoDup (List.map _id (ServerJs.post_api_recipes_reorder e st req).1).
Proof.
  intros Hst. split; [| split].
  - unfold ServerJs.post_api_recipes_handler. cbn zeta.
    destruct (validationResult req); [| exact Hst].
    unfold create.
    destruct (new_Recipe (clock e) (generated e) (body req)) as [doc | m] eqn:Hdoc;
      cbn [mbind result_bind]; [| exact Hst].
    destruct (failing (connection e)); [exact Hst |].
    destruct (existsb (has_id (generated e)) st) eqn:Hfresh; [exact Hst |].
    cbn [fst]. rewrite map_app. cbn [List.map].
    rewrite (new_Recipe_id _ _ _ _ Hdoc).
    apply NoDup_app. split; [exact Hst |]. split.
    + intros i Hi Hin. apply list_elem_of_singleton in Hin as ->.
      by apply existsb_has_id in Hfresh.
    + apply NoDup_singleton.
  - unfold ServerJs.put_api_recipes_handler. cbn zeta.
    destruct (validationResult req); [| exact Hst].
    unfold findByIdAndUpdate.
    destruct (castObjectId (JStr (params_id req))) as [sel | m];
      cbn [mbind result_bind]; [| exact Hst].
    destruct (castUpdate (body req)) as [f | m] eqn:Hf;
      cbn [mbind result_bind]; [| exact Hst].
    destruct (failing (connection e)); [exact Hst |].
    destruct sel as [i |]; [| exact Hst].
    destruct (find_by_id i st); [| exact Hst].
    cbn [fst]. rewrite update_first_ids; [exact Hst |].
    exact (castUpdate_id _ _ Hf).
  - pose proof (reorder_erased e st req) as H.
    by rewrite (erased_ids _ _ H).
Qed.

End UniqueIds.

(** ** What the routes answer and what they leave *)

Section Answers.
Import express_validator mongoose.
Variable isURL : string -> bool.

(** The three outcomes of a creation, in [server.js] and in the
    variants. *)
Lemma create_outcome e (st : collection) req :
  let out := ServerJs.post_api_recipes_handler e st req in
  let out' := ServerVariant.post_api_recipes_handler e st req in
  (exists doc,
     out = ((st ++ [doc])%list, Response 201 (toJSON doc)) /\ out' = out
     /\ validationResult req = []
     /\ new_Recipe (clock e) (generated e) (body req) = Ok doc
     /\ healthy e = true
     /\ existsb (has_id (generated e)) st = false)
  \/ (validationResult req <> []
      /\ out = (st, Response 400 (errors_body (validationResult req)))
      /\ out' = out)
  \/ (validationResult req = []
      /\ out = (st, Response 500 (message_body "Server error"))
      /\ exists m, out' = (st, Response 500
                                 (message_error_body "Failed to create recipe" m))).
Proof.
  unfold ServerJs.post_api_recipes_handler, ServerVariant.post_api_recipes_handler,
    create, healthy. cbn zeta.
  destruct (validationResult req) eqn:Hv; [| right; left; by repeat split].
  destruct (new_Recipe (clock e) (generated e) (body req)) as [doc | m];
    cbn [mbind result_bind]; [| right; right; repeat split; by eexists].
  destruct (failing (connection e)); [right; right; repeat split; by eexists |].
  destruct (existsb (has_id (generated e)) st);
    [right; right; repeat split; by eexists |].
  left. exists doc. by repeat split.
Qed.


(** X2. The create route of the later variants leaves the same
    collection and answers the same status as that of [server.js]; the two
    answers differ only when the status is 500, where [server.js] sends
    the message [Server error] alone and the variants send
    [Failed to create recipe] with the message of the error. *)
Theorem variant_create_differs_in_the_500_body
    (e : env) (st : collection) (id : string) (b : object) :
  let out := ServerJs.post_api_recipes isURL e st (incoming id b) in
  let out' := ServerVariant.post_api_recipes isURL e st (incoming id b) in
  out'.1 = out.1
  /\ status out'.2 = status out.2
  /\ (status out.2 <> 500 -> out' = out)
  /\ (status out.2 = 500 ->
      payload out.2 = message_body "Server error"
      /\ exists m, payload out'.2 = message_error_body "Failed to create recipe" m).
Proof.
  cbn zeta. unfold ServerJs.post_api_recipes, ServerVariant.post_api_recipes.
  destruct (create_outcome e st (run_chains (recipeValidators isURL) (incoming id b)))
    as [(doc & -> & -> & _) | [(_ & -> & ->) | (_ & -> & m & ->)]];
    cbn [fst snd status payload].
  - repeat split; try done.
  - repeat split; try done.
  - repeat split; try done. by exists m.
Qed.

Lemma update_first_Forall2 i f (st : collection) :
  Forall2 (fun r r' => r' = r \/ (has_id i r = true /\ r' = f r))
    st (update_first i f st).
Proof.
  induction st as [| r st IH]; [constructor |].
  cbn [update_first]. destruct (has_id i r) eqn:Hi.
  - constructor; [by right |]. apply Forall2_same_length_lookup_2; [done |].
    intros k x y Hx Hy. left. congruence.
  - constructor; [by left | exact IH].
Qed.

Lemma update_first_found i f (st : collection) r :
  find_by_id i st = Some r -> f r ∈ update_first i f st.
Proof.
  unfold find_by_id. induction st as [| x st IH]; [discriminate |].
  cbn [List.find update_first]. destruct (has_id i x).
  - intros [= ->]. left.
  - intros H. right. by apply IH.
Qed.

(** The four outcomes of an update. *)
Lemma update_outcome e (st : collection) req :
  let out := ServerJs.put_api_recipes_handler e st req in
  (validationResult req <> []
   /\ out = (st, Response 400 (errors_body (validationResult req))))
  \/ (validationResult req = []
      /\ out = (st, Response 500 (message_body "Server error"))
      /\ (hex24 (params_id req) = None \/ castable (body req) = false
          \/ healthy e = false))
  \/ (validationResult req = []
      /\ out = (st, Response 404 (message_body "Recipe not found"))
      /\ exists i, hex24 (params_id req) = Some i /\ find_by_id i st = None)
  \/ (validationResult req = []
      /\ exists i f r,
           hex24 (params_id req) = Some i
           /\ castUpdate (body req) = Ok f
           /\ healthy e = true
           /\ find_by_id i st = Some r
           /\ out = (update_first i f st, Response 200 (toJSON (f r)))).
Proof.
  unfold ServerJs.put_api_recipes_handler, findByIdAndUpdate, castable, healthy,
    castObjectId.
  cbn zeta.
  destruct (validationResult req) eqn:Hv; [| left; by split].
  right.
  destruct (hex24 (params_id req)) as [i |] eqn:Hi; cbn [mbind result_bind];
    [| left; repeat split; by left].
  destruct (castUpdate (body req)) as [f | m] eqn:Hf; cbn [mbind result_bind];
    [| left; repeat split; right; by left].
  destruct (failing (connection e)) eqn:He;
    [left; repeat split; right; by right |].
  destruct (find_by_id i st) as [r |] eqn:Hr.
  - right. right. split; [done |]. exists i, f, r. by repeat split.
  - right. left. repeat split. by exists i.
Qed.

(** X3. The update route answers 200, 400, 404 or 500.  It leaves the
    collection as it was unless it answers 200; it never adds or removes
    a record and never changes an id; a record whose id is not the one of
    the request stays as it is; on 200 the body of the answer is a stored
    record that has the id of the request. *)
Theorem update_rewrites_one_record_at_most
    (e : env) (st : collection) (id : string) (b : object) :
  let out := ServerJs.put_api_recipes isURL e st (incoming id b) in
  status out.2 ∈ [200; 400; 404; 500]
  /\ (status out.2 <> 200 -> out.1 = st)
  /\ Forall2 (fun r r' => _id r' = _id r /\ (hex24 id <> Some (_id r) -> r' = r))
       st out.1
  /\ (status out.2 = 200 ->
      exists r', payload out.2 = toJSON r' /\ r' ∈ out.1 /\ hex24 id = Some (_id r')).
Proof.
  cbn zeta. unfold ServerJs.put_api_recipes.
  set (req := run_chains (recipeValidators isURL) (incoming id b)).
  assert (Hid : params_id req = id).
  { unfold req. by destruct (validators_spec isURL (incoming id b)) as (-> & _). }
  assert (Hsame : Forall2 (fun r r' : Recipe =>
                     _id r' = _id r /\ (hex24 id <> Some (_id r) -> r' = r)) st st).
  { apply Forall2_same_length_lookup_2; [done |].
    intros k x y Hx Hy. split; congruence. }
  destruct (update_outcome e st req)
    as [(_ & ->) | [(_ & -> & _) | [(_ & -> & _) | (_ & i & f & r & Hi & Hf & _ & Hr & ->)]]];
    cbn [fst snd status payload].
  1-3: split; [set_solver |]; split; [done |]; split; [exact Hsame | discriminate].
  rewrite Hid in Hi.
  split; [set_solver |]. split; [done |]. split.
  - eapply Forall2_impl; [apply update_first_Forall2 |].
    cbn beta. intros x y [-> | [Hx ->]]; [split; congruence |].
    split; [exact (castUpdate_id _ _ Hf x) |].
    intros Hne. exfalso. apply Hne. rewrite Hi. f_equal.
    unfold has_id in Hx. apply String.eqb_eq in Hx. by symmetry.
  - intros _. exists (f r). split; [reflexivity |].
    split; [by apply update_first_found |].
    apply find_by_id_Some in Hr as [_ Hri].
    rewrite Hi. f_equal. rewrite (castUpdate_id _ _ Hf). by symmetry.
Qed.

End Answers.

(** ** More on the reorder route *)

Section ReorderMore.
Import express_validator mongoose.

Lemma strings_cast (ss : list string) :
  (exists ids, mapM hex24 ss = Some ids)
  \/ (exists s, JStr s ∈ List.map JStr ss /\ hex24 s = None).
Proof.
  induction ss as [| s ss IH]; [left; by exists [] |].
  destruct (hex24 s) as [i |] eqn:Hs.
  - destruct IH as [[ids Hids] | (s' & Hin & Hs')].
    + left. exists (i :: ids). cbn. by rewrite Hs, Hids.
    + right. exists s'. split; [by right | done].
  - right. exists s. split; [left | done].
Qed.

Lemma reorder_outcome e (st : collection) req :
  let out := ServerJs.post_api_recipes_reorder e st req in
  match body req !! "orderedIds" with
  | Some (JArr l) => status out.2 = 200 \/ status out.2 = 500
  | _ => out = (st, Response 400 (message_body "Invalid request format"))
  end.
Proof.
  unfold ServerJs.post_api_recipes_reorder. cbn zeta.
  destruct (body req !! "orderedIds") as [[ | | | | l | ] |]; try reflexivity.
  destruct (bulkWrite _ _ _ _) as [st' [m |]]; [by right | by left].
Qed.

Lemma reorder_outcome_variant e (st : collection) req :
  let out := ServerVariant.post_api_recipes_reorder e st req in
  match body req !! "orderedIds" with
  | Some (JArr l) => status out.2 = 200 \/ status out.2 = 500
  | _ => out = (st, Response 400 (message_body "Invalid request format"))
  end.
Proof.
  unfold ServerVariant.post_api_recipes_reorder. cbn zeta.
  destruct (body req !! "orderedIds") as [[ | | | | l | ] |]; try reflexivity.
  destruct (bulkWrite _ _ _ _) as [st' [m |]]; [by right | by left].
Qed.

(** X4. The reorder route answers 400 exactly when [orderedIds] is
    missing or is not an array, in [server.js] and in the variants; the
    body is then the message [Invalid request format] and nothing is
    written, whatever the state of the connection. *)
Theorem reorder_answers_400_exactly_without_array
    (e : env) (st : collection) (req : request) :
  let out := ServerJs.post_api_recipes_reorder e st req in
  let out' := ServerVariant.post_api_recipes_reorder e st req in
  (status out.2 = 400 <-> forall l, body req !! "orderedIds" <> Some (JArr l))
  /\ (status out'.2 = 400 <-> forall l, body req !! "orderedIds" <> Some (JArr l))
  /\ ((forall l, body req !! "orderedIds" <> Some (JArr l)) ->
      out = (st, Response 400 (message_body "Invalid request format"))
      /\ out' = out).
Proof.
  cbn zeta.
  pose proof (reorder_outcome e st req) as H.
  pose proof (reorder_outcome_variant e st req) as H'.
  cbn zeta in H, H'.
  destruct (body req !! "orderedIds") as [v |] eqn:Hb.
  - destruct v as [ | | | | l | ];
      try (rewrite H, H'; cbn [snd status];
           repeat split; try done; intros _ l; discriminate).
    split; [| split].
    + split; [intros E; rewrite E in H; by destruct H |].
      intros Hl. by destruct (Hl l).
    + split; [intros E; rewrite E in H'; by destruct H' |].
      intros Hl. by destruct (Hl l).
    + intros Hl. by destruct (Hl l).
  - rewrite H, H'. cbn [snd status]. repeat split; try done.
Qed.

(** X5. On an [orderedIds] that holds strings, well-formed ids or not,
    the reorder route of the variants leaves the same collection and
    answers the same status as that of [server.js], whatever the state of
    the connection; the answers are equal on 200 and differ in the body
    on 500. *)
Theorem variant_reorder_agrees_on_strings
    (e : env) (st : collection) (req : request) (ss : list string) :
  body req !! "orderedIds" = Some (JArr (List.map JStr ss)) ->
  let out := ServerJs.post_api_recipes_reorder e st req in
  let out' := ServerVariant.post_api_recipes_reorder e st req in
  out'.1 = out.1
  /\ status out'.2 = status out.2
  /\ (status out.2 = 200 -> out' = out)
  /\ (status out.2 = 500 ->
      payload out.2 = message_body "Server error"
      /\ exists m, payload out'.2 = message_error_body "Failed to reorder recipes" m).
Proof.
  intros Hb. cbn zeta.
  unfold ServerJs.post_api_recipes_reorder, ServerVariant.post_api_recipes_reorder.
  rewrite Hb. unfold bulkWrite, bulkUpdates.
  destruct (strings_cast ss) as [[ids Hids] | (s & Hin & Hs)].
  - rewrite (cast_ops_castObjectId ss ids), (cast_ops_new_ObjectId ss ids) by done.
    destruct (execute (connection e) (map_from 0 op_of ids) st) as [st' [m |]];
      cbn [fst snd status payload]; repeat split; try done. by exists m.
  - destruct (cast_ops_malformed _ 0%nat s Hin Hs) as [m ->].
    destruct (cast_ops_malformed_variant _ 0%nat s Hin Hs) as [m' ->].
    cbn [fst snd status payload]. repeat split; try done. by exists m'.
Qed.

(** The batch of a reorder under a connection that fails after [j]
    writes. *)
Lemma map_from_take {A B} (f : A -> nat -> B) (l : list A) : forall k j,
  take j (map_from k f l) = map_from k f (take j l).
Proof.
  induction l as [| x l IH]; intros k [| j]; cbn; try reflexivity.
  by rewrite IH.
Qed.

Lemma execute_interrupted ops : forall j m (st : collection),
  (j < length ops)%nat ->
  execute (Some (j, m)) ops st = ((execute None (take j ops) st).1, Some m).
Proof.
  induction ops as [| op ops IH]; intros j m st Hj; cbn in Hj; [lia |].
  destruct j as [| j]; [reflexivity |].
  cbn [execute failing after_one take]. apply IH. lia.
Qed.

Lemma execute_uninterrupted ops : forall j m (st : collection),
  (length ops <= j)%nat ->
  execute (Some (j, m)) ops st = execute None ops st.
Proof.
  induction ops as [| op ops IH]; intros j m st Hj; [reflexivity |].
  cbn in Hj. destruct j as [| j]; [lia |].
  cbn [execute failing after_one]. apply IH. lia.
Qed.

Lemma map_from_length {A B} (f : A -> nat -> B) (l : list A) : forall k,
  length (map_from k f l) = length l.
Proof. induction l as [| x l IH]; intros k; cbn; [reflexivity |]. by rewrite IH. Qed.

(** X6. A reorder is not undone when it fails: when the connection
    fails after [j] writes of a batch of well-formed ids, with more ids
    to go, the answer is 500 and the collection is the one a reorder by
    the first [j] ids leaves; when the connection outlasts the batch the
    reorder is answered 200 as over a healthy connection. *)
Theorem reorder_interrupted_keeps_the_first_writes
    (e : env) (st : collection) (id : string) (b : object)
    (ss : list string) (ids : list ObjectId) (j : nat) (m : string) :
  connection e = Some (j, m) ->
  NoDup (List.map _id st) ->
  b !! "orderedIds" = Some (JArr (List.map JStr ss)) ->
  mapM hex24 ss = Some ids ->
  let out := ServerJs.post_api_recipes_reorder e st (incoming id b) in
  let out' := ServerVariant.post_api_recipes_reorder e st (incoming id b) in
  ((j < length ids)%nat ->
   out = (List.map (reranked 0 (take j ids)) st,
          Response 500 (message_body "Server error"))
   /\ out' = (List.map (reranked 0 (take j ids)) st,
              Response 500 (message_error_body "Failed to reorder recipes" m)))
  /\ ((length ids <= j)%nat ->
      out = (List.map (reranked 0 ids) st,
             Response 200 (message_body "Recipes reordered successfully"))
      /\ out' = out).
Proof.
  intros He Hst Hb Hss. cbn zeta.
  unfold ServerJs.post_api_recipes_reorder, ServerVariant.post_api_recipes_reorder,
    incoming.
  cbn [body]. rewrite Hb. unfold bulkWrite, bulkUpdates.
  rewrite (cast_ops_castObjectId ss ids), (cast_ops_new_ObjectId ss ids) by done.
  rewrite He. split; intros Hj.
  - rewrite execute_interrupted by (by rewrite map_from_length).
    rewrite map_from_take, execute_reranks by done. by split.
  - rewrite execute_uninterrupted by (by rewrite map_from_length).
    rewrite execute_reranks by done. by split.
Qed.

(** A later reorder overrides an earlier one. *)
Lemma reranked_absorbs ids1 ids2 r :
  (_id r ∈ ids1 -> _id r ∈ ids2) ->
  reranked 0 ids2 (reranked 0 ids1 r) = reranked 0 ids2 r.
Proof.
  intros H. unfold reranked at 1 3. rewrite reranked_id.
  destruct (rank_from 0 ids2 (_id r)) as [p |] eqn:Hp.
  - unfold reranked. destruct (rank_from 0 ids1 (_id r)); [| reflexivity].
    apply set_position_twice.
  - unfold reranked. destruct (rank_from 0 ids1 (_id r)) eqn:H1; [| reflexivity].
    exfalso.
    assert (Hin : _id r ∈ ids1).
    { destruct (decide (_id r ∈ ids1)) as [Hin | Hin]; [done |].
      by rewrite rank_from_None in H1. }
    destruct (rank_from_Some ids2 0 _ (H Hin)) as [q Hq]. congruence.
Qed.

(** X7. A reorder overrides an earlier one: after a reorder by a first
    sequence, a reorder by a second sequence that names every stored
    recipe the first one named gives the collection and the answer it
    gives without the first reorder.  In particular the same reorder
    twice is the reorder once. *)
Theorem reorder_overrides_an_earlier_reorder
    (e1 e2 : env) (st : collection) (id : string) (b1 b2 : object)
    (ss1 ss2 : list string) (ids1 ids2 : list ObjectId) :
  connection e1 = None -> connection e2 = None ->
  NoDup (List.map _id st) ->
  b1 !! "orderedIds" = Some (JArr (List.map JStr ss1)) ->
  mapM hex24 ss1 = Some ids1 ->
  b2 !! "orderedIds" = Some (JArr (List.map JStr ss2)) ->
  mapM hex24 ss2 = Some ids2 ->
  (forall r, r ∈ st -> _id r ∈ ids1 -> _id r ∈ ids2) ->
  let st1 := (ServerJs.post_api_recipes_reorder e1 st (incoming id b1)).1 in
  ServerJs.post_api_recipes_reorder e2 st1 (incoming id b2)
  = ServerJs.post_api_recipes_reorder e2 st (incoming id b2)
  /\ ServerJs.post_api_recipes_reorder e2
       (ServerJs.post_api_recipes_reorder e2 st (incoming id b2)).1 (incoming id b2)
     = ServerJs.post_api_recipes_reorder e2 st (incoming id b2).
Proof.
  intros He1 He2 Hst Hb1 Hss1 Hb2 Hss2 Hsub. cbn zeta.
  rewrite (reorder_healthy e1 st id b1 ss1 ids1) by done.
  rewrite (reorder_healthy e2 st id b2 ss2 ids2) by done.
  cbn [fst].
  rewrite !(reorder_healthy e2 _ id b2 ss2 ids2) by (by rewrite ?reranked_ids).
  split; f_equal; rewrite List.map_map; apply map_ext_in; intros r Hr.
  - apply reranked_absorbs. apply Hsub. by apply list_elem_of_In.
  - by apply reranked_absorbs.
Qed.

End ReorderMore.

(** ** More on the list route *)

Section ListMore.
Import express_validator mongoose.

Lemma list_healthy_variant e st :
  healthy e = true ->
  ServerJs.get_api_recipes e st
  = Response 200 (JArr (List.map toJSON (sort_by_position st)))
  /\ ServerVariant.get_api_recipes e st = ServerJs.get_api_recipes e st.
Proof.
  unfold healthy, ServerJs.get_api_recipes, ServerVariant.get_api_recipes,
    find_sorted.
  by destruct (failing (connection e)).
Qed.

(** X8. Over a connection that serves the request, the list route
    answers 200, in [server.js] and in the variants alike, with the
    stored recipes, each of them once, in non-decreasing order of
    position, a [null] position first. *)
Theorem list_holds_every_recipe_once_by_position (e : env) (st : collection) :
  healthy e = true ->
  exists l,
    ServerJs.get_api_recipes e st = Response 200 (JArr (List.map toJSON l))
    /\ ServerVariant.get_api_recipes e st = Response 200 (JArr (List.map toJSON l))
    /\ l ≡ₚ st
    /\ StronglySorted before l.
Proof.
  intros He. destruct (list_healthy_variant e st He) as [H1 H2].
  exists (sort_by_position st). rewrite H2, H1.
  repeat split; [apply sort_perm | apply sort_StronglySorted].
Qed.

(** Sorting and filtering commute: the sort keeps the order of what it
    does not have to move. *)
Lemma insert_sorted_first r l :
  Forall (before r) l -> insert_sorted r l = r :: l.
Proof.
  destruct l as [| y l]; [reflexivity |].
  intros H. apply Forall_cons in H as [H _]. cbn [insert_sorted].
  unfold before in H. by rewrite H.
Qed.

Lemma filter_insert_sorted (f : Recipe -> bool) r l :
  StronglySorted before l ->
  List.filter f (insert_sorted r l)
  = if f r then insert_sorted r (List.filter f l) else List.filter f l.
Proof.
  induction 1 as [| y l Hl IH Hy]; cbn [insert_sorted List.filter].
  - by destruct (f r).
  - destruct (position_le (position r) (position y)) eqn:Hry.
    + cbn [List.filter]. destruct (f r); [| reflexivity].
      symmetry. apply insert_sorted_first.
      assert (Hall : Forall (before r) (y :: l)).
      { constructor; [exact Hry |].
        eapply Forall_impl; [exact Hy |]. intros z Hz.
        unfold before in *. by eapply position_le_trans. }
      change (Forall (before r) (List.filter f (y :: l))).
      apply Forall_forall. intros z Hz.
      apply list_elem_of_In, filter_In in Hz as [Hz _].
      apply list_elem_of_In in Hz.
      by apply (proj1 (Forall_forall _ _) Hall).
    + cbn [List.filter]. rewrite IH. destruct (f y), (f r); try reflexivity.
      cbn [insert_sorted]. by rewrite Hry.
Qed.

Lemma filter_sort (f : Recipe -> bool) (l : list Recipe) :
  List.filter f (sort_by_position l) = sort_by_position (List.filter f l).
Proof.
  induction l as [| r l IH]; [reflexivity |].
  rewrite sort_cons, filter_insert_sorted by apply sort_StronglySorted.
  cbn [List.filter]. destruct (f r); [| exact IH].
  by rewrite sort_cons, IH.
Qed.

Lemma sorted_split (f : Recipe -> bool) (l : list Recipe) :
  StronglySorted before l ->
  (forall x y, x ∈ l -> y ∈ l -> f x = true -> f y = false ->
     position_le (position y) (position x) = false) ->
  l = (List.filter f l ++ List.filter (fun r => negb (f r)) l)%list.
Proof.
  induction 1 as [| x l Hl IH Hx]; intros Hsep; [reflexivity |].
  cbn [List.filter]. destruct (f x) eqn:Hfx; cbn [negb].
  - rewrite <- app_comm_cons. f_equal. apply IH.
    intros a c Ha Hc. apply Hsep; by right.
  - assert (Hnone : forall z, z ∈ l -> f z = false).
    { intros z Hz. destruct (f z) eqn:Hfz; [| reflexivity]. exfalso.
      assert (Hxz : before x z) by by apply (proj1 (Forall_forall _ _) Hx).
      unfold before in Hxz.
      rewrite (Hsep z x) in Hxz; [discriminate | by right | left | done | done]. }
    assert (Hf : List.filter f l = []).
    { clear -Hnone. induction l as [| z l IH]; [reflexivity |].
      cbn [List.filter]. rewrite Hnone by left. apply IH.
      intros y Hy. apply Hnone. by right. }
    rewrite Hf, app_nil_l. f_equal. symmetry. apply filter_all.
    intros z Hz. by rewrite Hnone.
Qed.

Lemma filter_map_fixed {A} (f : A -> bool) (g : A -> A) (l : list A) :
  (forall x, f (g x) = f x) -> (forall x, f x = true -> g x = x) ->
  List.filter f (List.map g l) = List.filter f l.
Proof.
  intros Hf Hg. induction l as [| x l IH]; [reflexivity |].
  cbn [List.map List.filter]. rewrite Hf, IH.
  destruct (f x) eqn:Hx; [| reflexivity]. by rewrite Hg.
Qed.

Lemma rank_from_upper ids : forall k i p,
  rank_from k ids i = Some p -> p <= Z.of_nat (k + length ids).
Proof.
  induction ids as [| x ids IH]; intros k i p; cbn; [discriminate |].
  destruct (rank_from (S k) ids i) as [q |] eqn:Hq.
  - intros [= <-]. apply IH in Hq. lia.
  - destruct (String.eqb i x); intros [= <-]. lia.
Qed.

Lemma unlisted_reranked ids r : unlisted ids r = true -> reranked 0 ids r = r.
Proof.
  unfold unlisted, listed, reranked. intros H.
  apply negb_true_iff, bool_decide_eq_false in H.
  by rewrite rank_from_None.
Qed.

(** X9. A reorder that names only a part of the collection: when
    every recipe it does not name has a position beyond the length of the
    sequence (as the creation time is), the list shows the named recipes
    first, in the submitted order, and then the others in the order the
    list had them before. *)
Theorem reorder_of_a_part_lists_it_first
    (e e' : env) (st : collection) (id : string) (b : object)
    (ss : list string) (ids : list ObjectId) :
  connection e = None -> healthy e' = true ->
  NoDup (List.map _id st) ->
  b !! "orderedIds" = Some (JArr (List.map JStr ss)) ->
  mapM hex24 ss = Some ids ->
  (forall r, r ∈ st -> _id r ∉ ids ->
     exists p, position r = Some p /\ Z.of_nat (length ids) < p) ->
  let out := ServerJs.post_api_recipes_reorder e st (incoming id b) in
  ServerJs.get_api_recipes e' out.1
  = Response 200
      (JArr (List.map toJSON
               (placed st ids
                ++ List.filter (unlisted ids) (sort_by_position st))%list)).
Proof.
  intros He He' Hst Hb Hss Hrest. cbn zeta.
  rewrite (reorder_healthy e st id b ss ids) by done. cbn [fst].
  destruct (list_healthy_variant e' (List.map (reranked 0 ids) st) He') as [-> _].
  do 3 f_equal.
  rewrite (sorted_split (listed ids) (sort_by_position (List.map (reranked 0 ids) st)))
    at 1.
  - f_equal; [by apply listed_after_reorder |].
    change (fun r => negb (listed ids r)) with (unlisted ids).
    rewrite !filter_sort. f_equal.
    apply filter_map_fixed.
    + intros r. unfold unlisted, listed. by rewrite reranked_id.
    + apply unlisted_reranked.
  - apply sort_StronglySorted.
  - intros x y Hx Hy Hfx Hfy.
    rewrite sort_perm in Hx, Hy.
    apply list_elem_of_fmap in Hx as (rx & -> & Hrx).
    apply list_elem_of_fmap in Hy as (ry & -> & Hry).
    unfold listed in Hfx, Hfy. rewrite reranked_id in Hfx, Hfy.
    apply bool_decide_eq_true in Hfx. apply bool_decide_eq_false in Hfy.
    rewrite (position_reranked 0 ids rx) by done.
    destruct (rank_from_Some ids 0 _ Hfx) as [p Hp]. rewrite Hp.
    apply rank_from_upper in Hp.
    unfold reranked. rewrite rank_from_None by done.
    destruct (Hrest ry Hry Hfy) as (q & -> & Hq).
    cbn [position_le]. apply Z.leb_gt. lia.
Qed.

End ListMore.

(** ** More on the update route *)

Section UpdateMore.
Import express_validator mongoose.
Variable isURL : string -> bool.









End UpdateMore.

(** ** What the validators leave in the collection *)

Section Trim.
Import validator.

Lemma rtrim_cons c r :
  rtrim (String c r)
  = match rtrim r with
    | EmptyString => if is_space c then EmptyString else String c EmptyString
    | r' => String c r'
    end.
Proof. reflexivity. Qed.

Lemma rtrim_rtrim s : rtrim (rtrim s) = rtrim s.
Proof.
  induction s as [| c r IH]; [reflexivity |].
  rewrite rtrim_cons. destruct (rtrim r) as [| c' r'] eqn:Hr.
  - destruct (is_space c) eqn:Hc; [reflexivity |].
    rewrite rtrim_cons. cbn [rtrim]. by rewrite Hc.
  - rewrite rtrim_cons, IH. reflexivity.
Qed.

Lemma ltrim_head s :
  match ltrim s with
  | EmptyString => True
  | String c _ => is_space c = false
  end.
Proof.
  induction s as [| c r IH]; [exact I |].
  cbn [ltrim]. by destruct (is_space c) eqn:Hc.
Qed.

Lemma ltrim_rtrim_head s :
  match s with
  | EmptyString => True
  | String c _ => is_space c = false
  end ->
  ltrim (rtrim s) = rtrim s.
Proof.
  destruct s as [| c r]; [reflexivity |].
  intros Hc. rewrite rtrim_cons.
  destruct (rtrim r); [rewrite Hc |]; cbn [ltrim]; by rewrite Hc.
Qed.

Lemma trim_trim s : trim (trim s) = trim s.
Proof.
  unfold trim. rewrite (ltrim_rtrim_head (ltrim s)) by apply ltrim_head.
  apply rtrim_rtrim.
Qed.

Lemma no_space_trim s :
  forallb (fun c => negb (is_space c)) (list_ascii_of_string s) = true ->
  trim s = s.
Proof.
  intros H. unfold trim.
  assert (Hl : ltrim s = s).
  { destruct s as [| c r]; [reflexivity |].
    cbn [list_ascii_of_string forallb] in H. apply andb_prop in H as [Hc _].
    apply negb_true_iff in Hc. cbn [ltrim]. by rewrite Hc. }
  rewrite Hl. clear Hl.
  induction s as [| c r IH]; [reflexivity |].
  cbn [list_ascii_of_string forallb] in H. apply andb_prop in H as [Hc Hr].
  apply negb_true_iff in Hc. rewrite rtrim_cons, (IH Hr).
  destruct r; [by rewrite Hc | reflexivity].
Qed.

Lemma digit_no_space a d d' :
  uint_of_char a (Some d) = Some d' -> is_space a = false.
Proof.
  destruct a as [[] [] [] [] [] [] [] []]; cbn; first [discriminate | reflexivity].
Qed.

Lemma digits_no_space s : forall d,
  NilEmpty.uint_of_string s = Some d ->
  forallb (fun c => negb (is_space c)) (list_ascii_of_string s) = true.
Proof.
  induction s as [| c r IH]; intros d H; [reflexivity |].
  cbn [NilEmpty.uint_of_string] in H.
  destruct (NilEmpty.uint_of_string r) as [d0 |] eqn:Hr; [| discriminate].
  cbn [list_ascii_of_string forallb].
  rewrite (digit_no_space _ _ _ H), (IH d0 eq_refl). reflexivity.
Qed.

Lemma signed_digits_no_space s n :
  signed_digits s = Some n ->
  s <> EmptyString
  /\ forallb (fun c => negb (is_space c)) (list_ascii_of_string s) = true.
Proof.
  unfold signed_digits. intros H.
  assert (Hu : forall t d, NilZero.uint_of_string t = Some d ->
                 t <> EmptyString
                 /\ forallb (fun c => negb (is_space c)) (list_ascii_of_string t) = true).
  { intros t d Ht. destruct t as [| c r]; [discriminate |].
    split; [discriminate |]. by apply (digits_no_space _ d). }
  destruct s as [| c r]; [discriminate |]. split; [discriminate |].
  destruct (Ascii.eqb c "+") eqn:Hp; [apply Ascii.eqb_eq in Hp as -> |].
  - destruct (NilZero.uint_of_string r) as [d |] eqn:Hr; [| discriminate].
    cbn [list_ascii_of_string forallb]. by destruct (Hu r d Hr) as [_ ->].
  - destruct (Ascii.eqb c "-") eqn:Hm; [apply Ascii.eqb_eq in Hm as -> |].
    + destruct (NilZero.uint_of_string r) as [d |] eqn:Hr; [| discriminate].
      cbn [list_ascii_of_string forallb]. by destruct (Hu r d Hr) as [_ ->].
    + assert (E : (let '(negative, digits) :=
                     match String c r with
                     | String "+" r0 => (false, r0)
                     | String "-" r0 => (true, r0)
                     | _ => (false, String c r)
                     end%char in
                   match NilZero.uint_of_string digits with
                   | Some d => Some (if negative : bool then - Z.of_uint d else Z.of_uint d)
                   | None => None
                   end)
                  = match NilZero.uint_of_string (String c r) with
                    | Some d => Some (Z.of_uint d)
                    | None => None
                    end).
      { destruct c as [[] [] [] [] [] [] [] []]; first [discriminate | reflexivity]. }
      rewrite E in H.
      destruct (NilZero.uint_of_string (String c r)) as [d |] eqn:Hr; [| discriminate].
      by destruct (Hu _ d Hr) as [_ ->].
Qed.

Lemma js_Number_digits s n :
  signed_digits s = Some n -> mongoose.js_Number s = Some n.
Proof.
  intros H. destruct (signed_digits_no_space s n H) as [Hne Hs].
  unfold mongoose.js_Number. rewrite (no_space_trim s Hs).
  by destruct s.
Qed.

End Trim.

Section Validated.
Import express_validator mongoose.
Variable isURL : string -> bool.

Lemma requiredString_trimmed p v x :
  requiredString p (sanitize validator.trim v) = Ok x ->
  x = validator.trim (toString v) /\ trimmed_text x = true.
Proof.
  unfold requiredString, required, sanitize.
  assert (H : forall t, (s ← match castString (JStr t) with
                             | Ok (Some a) => Ok a
                             | Ok None => Err (String.append p " is required")
                             | Err m => Err m
                             end;
                         if validator.isEmpty s
                         then Err (String.append p " is required") else Ok s) = Ok x ->
              x = t /\ validator.isEmpty x = false).
  { intros t. cbn [castString mbind result_bind].
    destruct (validator.isEmpty t) eqn:Ht; [discriminate |]. by intros [= <-]. }
  assert (Hgo : forall t, t = validator.trim (toString v) ->
              x = t /\ validator.isEmpty x = false ->
              x = validator.trim (toString v) /\ trimmed_text x = true).
  { intros t -> [-> Hx]. split; [reflexivity |]. unfold trimmed_text.
    rewrite Hx, trim_trim, String.eqb_refl. reflexivity. }
  destruct v as [[| | | | l |] |]; first [discriminate | intros Hx; by apply (Hgo _ eq_refl), H].
Qed.

Lemma requiredNumber_from p v n :
  satisfies isURL (IntegerFrom 1) (Some v) = true ->
  requiredNumber p v = Ok n -> 1 <= n.
Proof.
  unfold requiredNumber, required.
  destruct v as [| [] | k | s | l | o]; cbn [castNumber]; try discriminate.
  - cbn. rewrite isInt_decimal, andb_true_r. intros Hk [= <-]. by apply Z.leb_le.
  - cbn [satisfies instances forallb toString js_String]. rewrite andb_true_r.
    unfold validator.isInt.
    destruct (validator.signed_digits s) as [k |] eqn:Hs; [| discriminate].
    intros Hk. rewrite (js_Number_digits s k Hs).
    destruct s; [discriminate |]. intros [= <-]. by apply Z.leb_le.
Qed.

Lemma castStrings_length l : forall l',
  castStrings l = Ok l' -> length l' = length l.
Proof.
  induction l as [| v l IH]; intros l'; cbn [castStrings].
  - by intros [= <-].
  - destruct (castString v); cbn [mbind result_bind]; [| discriminate].
    destruct (castStrings l) as [r |] eqn:Hr; cbn [mbind result_bind]; [| discriminate].
    intros [= <-]. cbn. by rewrite (IH r).
Qed.

Lemma requiredStrings_at_least p v l :
  satisfies isURL (AtLeast 1) (Some v) = true ->
  requiredStrings p v = Ok l -> (1 <= length l)%nat.
Proof.
  unfold requiredStrings, required. cbn [satisfies].
  destruct v as [| | | | l0 |]; try discriminate.
  intros Hl. apply bool_decide_eq_true in Hl. cbn [castStringArray].
  destruct (castStrings l0) as [r |] eqn:Hr; cbn [mbind result_bind]; [| discriminate].
  intros [= <-]. by rewrite (castStrings_length _ _ Hr).
Qed.

Lemma valid_present id b :
  validationResult (run_chains (recipeValidators isURL) (incoming id b)) = [] ->
  forall p k m, FieldRule p k m ∈ field_rules ->
    match k with
    | NonEmptyText | WellFormedUrl => True
    | _ => exists v, b !! p = Some v /\ satisfies isURL k (Some v) = true
    end.
Proof.
  intros Hv p k m Hin.
  pose proof (proj1 (no_violation_iff isURL id b) Hv _ Hin) as Hs.
  cbn [rule_kind_of rule_field] in Hs.
  destruct k as [| n | | min]; try exact I.
  - destruct (b !! p) as [v |]; [by exists v | discriminate].
  - destruct (b !! p) as [v |]; [by exists v |]. discriminate.
Qed.

Lemma valid_image id b :
  validationResult (run_chains (recipeValidators isURL) (incoming id b)) = [] ->
  (forall l, b !! "image" <> Some (JArr l)) ->
  isURL (validator.trim (toString (b !! "image"))) = true.
Proof.
  intros Hv Hl.
  assert (Hin : FieldRule "image" WellFormedUrl "Valid image URL is required"
                ∈ field_rules) by (unfold field_rules; repeat constructor).
  pose proof (proj1 (no_violation_iff isURL id b) Hv _ Hin) as Hs.
  cbn [rule_kind_of rule_field satisfies] in Hs.
  rewrite instances_scalar in Hs by done.
  cbn [forallb] in Hs. by rewrite andb_true_r in Hs.
Qed.

(** The casts of the eight validated paths of a valid payload, as
    creation and update both make them. *)
Lemma valid_casts id b :
  validationResult (run_chains (recipeValidators isURL) (incoming id b)) = [] ->
  let b' := body (run_chains (recipeValidators isURL) (incoming id b)) in
  exists v4 v6 v7 v8,
    b' !! "name" = Some (sanitize validator.trim (b !! "name"))
    /\ b' !! "cuisine" = Some (sanitize validator.trim (b !! "cuisine"))
    /\ b' !! "instructions" = Some (sanitize validator.trim (b !! "instructions"))
    /\ b' !! "image" = Some (sanitize validator.trim (b !! "image"))
    /\ b' !! "ingredients" = Some v4
    /\ b' !! "prepTimeMinutes" = Some v6
    /\ b' !! "cookTimeMinutes" = Some v7
    /\ b' !! "servings" = Some v8
    /\ (forall l, requiredStrings "ingredients" v4 = Ok l -> (1 <= length l)%nat)
    /\ (forall n, requiredNumber "prepTimeMinutes" v6 = Ok n -> 1 <= n)
    /\ (forall n, requiredNumber "cookTimeMinutes" v7 = Ok n -> 1 <= n)
    /\ (forall n, requiredNumber "servings" v8 = Ok n -> 1 <= n)
    /\ (forall x, requiredString "image" (sanitize validator.trim (b !! "image")) = Ok x ->
          isURL x = true).
Proof.
  intros Hv. cbn zeta.
  destruct (valid_present id b Hv "ingredients" (AtLeast 1)
              "At least one ingredient is required") as (v4 & H4 & S4);
    [unfold field_rules; repeat constructor |].
  destruct (valid_present id b Hv "prepTimeMinutes" (IntegerFrom 1)
              "Valid prep time is required") as (v6 & H6 & S6);
    [unfold field_rules; repeat constructor |].
  destruct (valid_present id b Hv "cookTimeMinutes" (IntegerFrom 1)
              "Valid cook time is required") as (v7 & H7 & S7);
    [unfold field_rules; repeat constructor |].
  destruct (valid_present id b Hv "servings" (IntegerFrom 1)
              "Valid servings number is required") as (v8 & H8 & S8);
    [unfold field_rules; repeat constructor |].
  exists v4, v6, v7, v8. rewrite sanitized_body.
  rewrite !lookup_insert_eq.
  repeat (rewrite lookup_insert_ne by done; rewrite ?lookup_insert_eq).
  repeat split; try done.
  - intros l. by apply requiredStrings_at_least.
  - intros n. by apply requiredNumber_from.
  - intros n. by apply requiredNumber_from.
  - intros n. by apply requiredNumber_from.
  - intros x Hx.
    destruct (requiredString_trimmed _ _ _ Hx) as [-> _].
    apply (valid_image id b Hv). intros l Hl. rewrite Hl in Hx. discriminate.
Qed.

End Validated.

Section StoredRecords.
Import express_validator mongoose.
Variable isURL : string -> bool.

Lemma path_of_present {A} (b : object) p (cast : json -> result A) d v :
  b !! p = Some v -> path_of b p cast d = cast v.
Proof. unfold path_of. by intros ->. Qed.

Lemma set_path_present {A} (b : object) p (cast : json -> result A) set v f :
  b !! p = Some v -> set_path b p cast set = Ok f ->
  exists a, cast v = Ok a /\ f = set a.
Proof.
  unfold set_path. intros ->.
  destruct (cast v) as [a |]; cbn [mbind result_bind]; [| discriminate].
  intros [= <-]. by exists a.
Qed.

Lemma set_path_cases {A} (b : object) p (cast : json -> result A) set f :
  set_path b p cast set = Ok f -> f = (fun r => r) \/ exists a, f = set a.
Proof.
  unfold set_path. destruct (b !! p) as [v |]; [| intros [= <-]; by left].
  destruct (cast v) as [a |]; cbn [mbind result_bind]; [| discriminate].
  intros [= <-]. right. by exists a.
Qed.

Lemma validated_intro (r : Recipe) :
  trimmed_text (name r) = true -> trimmed_text (cuisine r) = true ->
  trimmed_text (instructions r) = true -> (1 <= length (ingredients r))%nat ->
  trimmed_text (image r) = true -> isURL (image r) = true ->
  1 <= prepTimeMinutes r -> 1 <= cookTimeMinutes r -> 1 <= servings r ->
  validated isURL r = true.
Proof.
  intros H1 H2 H3 H4 H5 H6 H7 H8 H9. unfold validated.
  rewrite H1, H2, H3, H5, H6, bool_decide_eq_true_2 by done.
  cbn [andb]. by rewrite !(proj2 (Z.leb_le _ _)).
Qed.

Lemma created_validated id b now fresh doc :
  validationResult (run_chains (recipeValidators isURL) (incoming id b)) = [] ->
  new_Recipe now fresh (body (run_chains (recipeValidators isURL) (incoming id b)))
  = Ok doc ->
  validated isURL doc = true
  /\ name doc = validator.trim (toString (b !! "name"))
  /\ cuisine doc = validator.trim (toString (b !! "cuisine"))
  /\ instructions doc = validator.trim (toString (b !! "instructions"))
  /\ image doc = validator.trim (toString (b !! "image")).
Proof.
  intros Hv H.
  destruct (valid_casts isURL id b Hv)
    as (v4 & v6 & v7 & v8 & B1 & B2 & B3 & B5 & B4 & B6 & B7 & B8
        & L4 & L6 & L7 & L8 & LU).
  cbn zeta in *.
  unfold new_Recipe in H.
  rewrite (path_of_present _ _ _ _ _ B1), (path_of_present _ _ _ _ _ B2),
    (path_of_present _ _ _ _ _ B3), (path_of_present _ _ _ _ _ B4),
    (path_of_present _ _ _ _ _ B5), (path_of_present _ _ _ _ _ B6),
    (path_of_present _ _ _ _ _ B7), (path_of_present _ _ _ _ _ B8) in H.
  destruct (requiredString "name" _) as [x1 |] eqn:E1;
    cbn [mbind result_bind] in H; [| discriminate].
  destruct (requiredString "cuisine" _) as [x2 |] eqn:E2;
    cbn [mbind result_bind] in H; [| discriminate].
  destruct (requiredString "instructions" _) as [x3 |] eqn:E3;
    cbn [mbind result_bind] in H; [| discriminate].
  destruct (requiredStrings "ingredients" v4) as [x4 |] eqn:E4;
    cbn [mbind result_bind] in H; [| discriminate].
  destruct (requiredString "image" _) as [x5 |] eqn:E5;
    cbn [mbind result_bind] in H; [| discriminate].
  destruct (requiredNumber "prepTimeMinutes" v6) as [x6 |] eqn:E6;
    cbn [mbind result_bind] in H; [| discriminate].
  destruct (requiredNumber "cookTimeMinutes" v7) as [x7 |] eqn:E7;
    cbn [mbind result_bind] in H; [| discriminate].
  destruct (requiredNumber "servings" v8) as [x8 |] eqn:E8;
    cbn [mbind result_bind] in H; [| discriminate].
  destruct (path_of _ "tags" _ _) as [x9 |];
    cbn [mbind result_bind] in H; [| discriminate].
  destruct (path_of _ "position" _ _) as [x10 |];
    cbn [mbind result_bind] in H; [| discriminate].
  injection H as <-.
  destruct (requiredString_trimmed _ _ _ E1) as [N1 T1].
  destruct (requiredString_trimmed _ _ _ E2) as [N2 T2].
  destruct (requiredString_trimmed _ _ _ E3) as [N3 T3].
  destruct (requiredString_trimmed _ _ _ E5) as [N5 T5].
  split; [| by repeat split].
  apply validated_intro; cbn [name cuisine instructions ingredients image
                               prepTimeMinutes cookTimeMinutes servings]; auto.
Qed.

Lemma updated_validated id b f r :
  validationResult (run_chains (recipeValidators isURL) (incoming id b)) = [] ->
  castUpdate (body (run_chains (recipeValidators isURL) (incoming id b))) = Ok f ->
  validated isURL (f r) = true.
Proof.
  intros Hv H.
  destruct (valid_casts isURL id b Hv)
    as (v4 & v6 & v7 & v8 & B1 & B2 & B3 & B5 & B4 & B6 & B7 & B8
        & L4 & L6 & L7 & L8 & LU).
  cbn zeta in *.
  unfold castUpdate in H.
  destruct (set_path _ "name" _ _) as [f1 |] eqn:E1;
    cbn [mbind result_bind] in H; [| discriminate].
  destruct (set_path _ "cuisine" _ _) as [f2 |] eqn:E2;
    cbn [mbind result_bind] in H; [| discriminate].
  destruct (set_path _ "instructions" _ _) as [f3 |] eqn:E3;
    cbn [mbind result_bind] in H; [| discriminate].
  destruct (set_path _ "ingredients" _ _) as [f4 |] eqn:E4;
    cbn [mbind result_bind] in H; [| discriminate].
  destruct (set_path _ "image" _ _) as [f5 |] eqn:E5;
    cbn [mbind result_bind] in H; [| discriminate].
  destruct (set_path _ "prepTimeMinutes" _ _) as [f6 |] eqn:E6;
    cbn [mbind result_bind] in H; [| discriminate].
  destruct (set_path _ "cookTimeMinutes" _ _) as [f7 |] eqn:E7;
    cbn [mbind result_bind] in H; [| discriminate].
  destruct (set_path _ "servings" _ _) as [f8 |] eqn:E8;
    cbn [mbind result_bind] in H; [| discriminate].
  destruct (set_path _ "tags" _ _) as [f9 |] eqn:E9;
    cbn [mbind result_bind] in H; [| discriminate].
  destruct (set_path _ "position" _ _) as [f10 |] eqn:E10;
    cbn [mbind result_bind] in H; [| discriminate].
  injection H as <-.
  destruct (set_path_present _ _ _ _ _ _ B1 E1) as (x1 & C1 & ->).
  destruct (set_path_present _ _ _ _ _ _ B2 E2) as (x2 & C2 & ->).
  destruct (set_path_present _ _ _ _ _ _ B3 E3) as (x3 & C3 & ->).
  destruct (set_path_present _ _ _ _ _ _ B4 E4) as (x4 & C4 & ->).
  destruct (set_path_present _ _ _ _ _ _ B5 E5) as (x5 & C5 & ->).
  destruct (set_path_present _ _ _ _ _ _ B6 E6) as (x6 & C6 & ->).
  destruct (set_path_present _ _ _ _ _ _ B7 E7) as (x7 & C7 & ->).
  destruct (set_path_present _ _ _ _ _ _ B8 E8) as (x8 & C8 & ->).
  destruct (requiredString_trimmed _ _ _ C1) as [_ T1].
  destruct (requiredString_trimmed _ _ _ C2) as [_ T2].
  destruct (requiredString_trimmed _ _ _ C3) as [_ T3].
  destruct (requiredString_trimmed _ _ _ C5) as [_ T5].
  destruct (set_path_cases _ _ _ _ _ E9) as [-> | [x9 ->]];
    destruct (set_path_cases _ _ _ _ _ E10) as [-> | [x10 ->]];
    apply validated_intro;
    cbn [name cuisine instructions ingredients image prepTimeMinutes cookTimeMinutes
         servings set_name set_cuisine set_instructions set_ingredients set_image
         set_prepTimeMinutes set_cookTimeMinutes set_servings set_tags set_position];
    auto.
Qed.

End StoredRecords.

Section Invariants.
Import express_validator mongoose.
Variable isURL : string -> bool.


(** X13. Whatever the payload, an update that is answered 200 has
    rewritten a stored recipe that has the id of the request into a
    record with the same id that meets the rules of the validators, and
    answers with that record. *)
Theorem updated_record_meets_the_rules
    (e : env) (st : collection) (id : string) (b : object) :
  let out := ServerJs.put_api_recipes isURL e st (incoming id b) in
  status out.2 = 200 ->
  exists r r',
    r ∈ st /\ hex24 id = Some (_id r)
    /\ r' ∈ out.1 /\ payload out.2 = toJSON r'
    /\ _id r' = _id r
    /\ validated isURL r' = true.
Proof.
  cbn zeta. unfold ServerJs.put_api_recipes.
  set (req := run_chains (recipeValidators isURL) (incoming id b)).
  assert (Hid : params_id req = id).
  { unfold req. by destruct (validators_spec isURL (incoming id b)) as (-> & _). }
  destruct (update_outcome e st req)
    as [(_ & ->) | [(_ & -> & _) | [(_ & -> & _)
        | (Hv & i & f & r & Hi & Hf & _ & Hr & ->)]]];
    cbn [fst snd status payload]; try discriminate.
  intros _. rewrite Hid in Hi. exists r, (f r).
  pose proof (update_first_found i f st r Hr) as Hin.
  apply find_by_id_Some in Hr as [Hr <-].
  repeat split; try done.
  - exact (castUpdate_id _ _ Hf r).
  - by apply (updated_validated isURL id b).
Qed.

Lemma signed_digits_of_valid id b p m s :
  validationResult (run_chains (recipeValidators isURL) (incoming id b)) = [] ->
  FieldRule p (IntegerFrom 1) m ∈ field_rules ->
  b !! p = Some (JStr s) ->
  exists n, validator.signed_digits s = Some n /\ 1 <= n
            /\ requiredNumber p (JStr s) = Ok n.
Proof.
  intros Hv Hin Hb.
  pose proof (proj1 (no_violation_iff isURL id b) Hv _ Hin) as Hs.
  cbn [rule_kind_of rule_field] in Hs. rewrite Hb in Hs.
  cbn [satisfies instances forallb toString js_String] in Hs.
  rewrite andb_true_r in Hs. unfold validator.isInt in Hs.
  destruct (validator.signed_digits s) as [n |] eqn:Hn; [| discriminate].
  exists n. split; [reflexivity |]. split; [by apply Z.leb_le |].
  unfold requiredNumber, required. cbn [castNumber].
  rewrite (js_Number_digits s n Hn). by destruct s.
Qed.

(** X14. A quantity sent as a string: when [prepTimeMinutes],
    [cookTimeMinutes] or [servings] is a string and the creation is
    answered 201, the string is an optionally signed run of decimal
    digits that denotes a number from 1, and, up to the largest integer
    JavaScript holds exactly, the record holds that number, not the
    string. *)
Theorem quantity_sent_as_text_is_stored_as_a_number
    (e : env) (st : collection) (id : string) (b : object) (p s : string) :
  p ∈ ["prepTimeMinutes"; "cookTimeMinutes"; "servings"] ->
  b !! p = Some (JStr s) ->
  let out := ServerJs.post_api_recipes isURL e st (incoming id b) in
  status out.2 = 201 ->
  exists n,
    validator.signed_digits s = Some n /\ 1 <= n
    /\ (n <= 9007199254740991 -> field (payload out.2) p = Some (JNum n)).
Proof.
  intros Hp Hb. cbn zeta. unfold ServerJs.post_api_recipes.
  destruct (create_outcome e st (run_chains (recipeValidators isURL) (incoming id b)))
    as [(doc & -> & _ & Hv & Hdoc & _) | [(_ & -> & _) | (_ & -> & _)]];
    cbn [snd status payload]; [| discriminate | discriminate].
  intros _.
  assert (Hgo : forall m,
            FieldRule p (IntegerFrom 1) m ∈ field_rules ->
            body (run_chains (recipeValidators isURL) (incoming id b)) !! p = b !! p ->
            forall k : Z -> result Recipe,
              (forall n, path_of (body (run_chains (recipeValidators isURL)
                                          (incoming id b))) p (requiredNumber p) None
                         = Ok n ->
                         k n = Ok doc -> field (toJSON doc) p = Some (JNum n)) ->
              (path_of (body (run_chains (recipeValidators isURL) (incoming id b)))
                 p (requiredNumber p) None ≫= k) = Ok doc ->
              exists n, validator.signed_digits s = Some n /\ 1 <= n
                        /\ (n <= 9007199254740991 ->
                            field (toJSON doc) p = Some (JNum n))).
  { intros m Hin Hkept k Hk Hbind.
    destruct (signed_digits_of_valid id b p m s Hv Hin Hb) as (n & Hn & Hle & Hc).
    exists n. split; [exact Hn |]. split; [exact Hle |]. intros _.
    rewrite Hb in Hkept.
    rewrite (path_of_present _ p _ _ _ Hkept), Hc in Hbind, Hk.
    cbn [mbind result_bind] in Hbind. by apply Hk. }
  unfold new_Recipe in Hdoc.
  repeat match type of Hdoc with
         | (path_of _ "prepTimeMinutes" _ _ ≫= _) = Ok _ => fail 1
         | (?m ≫= _) = Ok _ =>
             destruct m; cbn [mbind result_bind] in Hdoc; [| discriminate]
         end.
  repeat (apply elem_of_cons in Hp as [-> | Hp]); [.. | by apply elem_of_nil in Hp].
  - eapply (Hgo "Valid prep time is required"
              ltac:(unfold field_rules; repeat constructor));
      [| | exact Hdoc].
    + rewrite sanitized_body. by rewrite !lookup_insert_ne by done.
    + intros n _ H. cbn beta in H.
      repeat match type of H with
             | (?m ≫= _) = Ok _ =>
                 destruct m; cbn [mbind result_bind] in H; [| discriminate]
             end.
      by injection H as <-.
  - destruct (path_of _ "prepTimeMinutes" _ _) as [x6 |];
      cbn [mbind result_bind] in Hdoc; [| discriminate].
    eapply (Hgo "Valid cook time is required"
              ltac:(unfold field_rules; repeat constructor));
      [| | exact Hdoc].
    + rewrite sanitized_body. by rewrite !lookup_insert_ne by done.
    + intros n _ H. cbn beta in H.
      repeat match type of H with
             | (?m ≫= _) = Ok _ =>
                 destruct m; cbn [mbind result_bind] in H; [| discriminate]
             end.
      by injection H as <-.
  - destruct (path_of _ "prepTimeMinutes" _ _) as [x6 |];
      cbn [mbind result_bind] in Hdoc; [| discriminate].
    destruct (path_of _ "cookTimeMinutes" _ _) as [x7 |];
      cbn [mbind result_bind] in Hdoc; [| discriminate].
    eapply (Hgo "Valid servings number is required"
              ltac:(unfold field_rules; repeat constructor));
      [| | exact Hdoc].
    + rewrite sanitized_body. by rewrite !lookup_insert_ne by done.
    + intros n _ H. cbn beta in H.
      repeat match type of H with
             | (?m ≫= _) = Ok _ =>
                 destruct m; cbn [mbind result_bind] in H; [| discriminate]
             end.
      by injection H as <-.
Qed.

(** Requests served one after the other keep what each of them keeps. *)
Lemma serve_invariant {S Q R : Type} (handle : S -> Q -> S * R) (P : S -> Prop) :
  (forall st q, P st -> P (handle st q).1) ->
  forall reqs st, P st -> P (serve handle st reqs).1.
Proof.
  intros Hstep. induction reqs as [| q reqs IH]; intros st Hst; [exact Hst |].
  cbn [serve]. pose proof (Hstep st q Hst) as H1.
  destruct (handle st q) as [st1 res]. cbn [fst] in H1.
  pose proof (IH st1 H1) as H2.
  by destruct (serve handle st1 reqs) as [st2 rs].
Qed.

Lemma validated_position p r :
  validated isURL (set_position p r) = validated isURL r.
Proof. reflexivity. Qed.

Lemma application_validated (st : collection) (ec : env * call) :
  Forall (fun r => validated isURL r = true) st ->
  Forall (fun r => validated isURL r = true) (application isURL st ec).1.
Proof.
  intros Hst. unfold application. destruct ec.2 as [| b | id b | b].
  - exact Hst.
  - unfold ServerJs.post_api_recipes.
    destruct (create_outcome ec.1 st
                (run_chains (recipeValidators isURL) (incoming "" b)))
      as [(doc & -> & _ & Hv & Hdoc & _) | [(_ & -> & _) | (_ & -> & _)]];
      cbn [fst]; try exact Hst.
    apply Forall_app. split; [exact Hst |]. constructor; [| constructor].
    by destruct (created_validated isURL "" b _ _ doc Hv Hdoc) as [-> _].
  - unfold ServerJs.put_api_recipes.
    destruct (update_outcome ec.1 st
                (run_chains (recipeValidators isURL) (incoming id b)))
      as [(_ & ->) | [(_ & -> & _) | [(_ & -> & _)
          | (Hv & i & f & r & _ & Hf & _ & _ & ->)]]];
      cbn [fst]; try exact Hst.
    pose proof (update_first_Forall2 i f st) as H2.
    induction H2 as [| x y l l' Hxy _ IH]; [constructor |].
    apply Forall_cons in Hst as [Hx Hl].
    constructor; [| by apply IH].
    destruct Hxy as [-> | [_ ->]]; [exact Hx |].
    by apply (updated_validated isURL id b).
  - pose proof (reorder_erased ec.1 st (incoming "" b)) as He.
    set (st' := (ServerJs.post_api_recipes_reorder ec.1 st (incoming "" b)).1) in *.
    assert (H : Forall (fun r => validated isURL r = true)
                  (List.map (set_position None) st')).
    { rewrite He. apply Forall_fmap. eapply Forall_impl; [exact Hst |].
      intros r Hr. cbn. by rewrite validated_position. }
    apply Forall_fmap in H. eapply Forall_impl; [exact H |].
    intros r Hr. cbn in Hr. by rewrite validated_position in Hr.
Qed.

(** X15. The rules of the validators are an invariant of the
    collection: when every stored recipe meets them, so does every stored
    recipe after any sequence of list, create, update and reorder
    requests, whatever their payloads and the state of the connection. *)
Theorem every_stored_recipe_keeps_meeting_the_rules
    (st : collection) (calls : list (env * call)) :
  Forall (fun r => validated isURL r = true) st ->
  Forall (fun r => validated isURL r = true) (serve (application isURL) st calls).1.
Proof. apply (serve_invariant (application isURL)). apply application_validated. Qed.

Lemma application_ids (st : collection) (ec : env * call) :
  List.map _id (application isURL st ec).1 = List.map _id st
  \/ (List.map _id (application isURL st ec).1 = (List.map _id st ++ [generated ec.1])%list
      /\ generated ec.1 ∉ List.map _id st).
Proof.
  unfold application. destruct ec.2 as [| b | id b | b].
  - by left.
  - unfold ServerJs.post_api_recipes.
    destruct (create_outcome ec.1 st
                (run_chains (recipeValidators isURL) (incoming "" b)))
      as [(doc & -> & _ & _ & Hdoc & _ & Hf) | [(_ & -> & _) | (_ & -> & _)]];
      cbn [fst]; try by left.
    right. rewrite map_app. cbn [List.map].
    rewrite (new_Recipe_id _ _ _ _ Hdoc). split; [reflexivity |].
    by apply existsb_has_id.
  - unfold ServerJs.put_api_recipes.
    destruct (update_outcome ec.1 st
                (run_chains (recipeValidators isURL) (incoming id b)))
      as [(_ & ->) | [(_ & -> & _) | [(_ & -> & _)
          | (_ & i & f & r & _ & Hf & _ & _ & ->)]]];
      cbn [fst]; try by left.
    left. apply update_first_ids. exact (castUpdate_id _ _ Hf).
  - left. apply erased_ids, reorder_erased.
Qed.

(** X16. No route removes a recipe: after any sequence of requests
    the ids of the collection are still unique, the ids it had at first
    are still there, in the same order and before the new ones, and it
    has grown by at most one recipe per request. *)
Theorem no_recipe_is_ever_removed
    (st : collection) (calls : list (env * call)) :
  NoDup (List.map _id st) ->
  let st' := (serve (application isURL) st calls).1 in
  NoDup (List.map _id st')
  /\ List.map _id st `prefix_of` List.map _id st'
  /\ (length st' <= length st + length calls)%nat.
Proof.
  intros Hst. cbn zeta. revert st Hst.
  induction calls as [| ec calls IH]; intros st Hst.
  - cbn [serve fst length]. split; [exact Hst |]. split; [reflexivity | lia].
  - cbn [serve]. pose proof (application_ids st ec) as Hids.
    destruct (application isURL st ec) as [st1 res]. cbn [fst] in Hids.
    assert (H1 : NoDup (List.map _id st1)
                 /\ List.map _id st `prefix_of` List.map _id st1
                 /\ (length st1 <= S (length st))%nat).
    { destruct Hids as [E | [E Hfresh]].
      - rewrite E. split; [exact Hst |]. split; [reflexivity |].
        apply (f_equal (@length _)) in E. rewrite !length_map in E. lia.
      - rewrite E. split; [| split].
        + apply NoDup_app. split; [exact Hst |]. split; [| apply NoDup_singleton].
          intros i Hi Hin. by apply list_elem_of_singleton in Hin as ->.
        + by apply prefix_app_r.
        + apply (f_equal (@length _)) in E.
          rewrite length_app, !length_map in E. cbn in E. lia. }
    destruct H1 as (N1 & P1 & L1).
    destruct (IH st1 N1) as (N2 & P2 & L2).
    destruct (serve (application isURL) st1 calls) as [st2 rs]. cbn [fst length] in *.
    split; [exact N2 |]. split; [by etransitivity | lia].
Qed.

End Invariants.

Section Defaults.
Import express_validator mongoose.
Variable isURL : string -> bool.



End Defaults.

(** ** Examples, witnesses and counterexamples *)

Section Examples.
Import express_validator mongoose.

(** The plain values of a field: a text rule reads the trimmed string, the
    integer rule a JSON number by its value, and a missing field fails
    both. *)
Lemma satisfies_plain_values (isURL : string -> bool) (s : string) (n min : Z) :
  satisfies isURL NonEmptyText (Some (JStr s))
  = negb (validator.isEmpty (validator.trim s))
  /\ satisfies isURL NonEmptyText None = false
  /\ satisfies isURL WellFormedUrl (Some (JStr s)) = isURL (validator.trim s)
  /\ satisfies isURL (IntegerFrom min) (Some (JNum n)) = (min <=? n)
  /\ satisfies isURL (IntegerFrom min) None = false.
Proof.
  cbn [satisfies instances forallb toString js_String].
  rewrite isInt_decimal, !andb_true_r. by repeat split.
Qed.

(** The example of the specification: an empty name is answered 400, and
    the first violation names [name]. *)
Example create_with_empty_name (isURL : string -> bool) :
  exists rest,
    ServerJs.post_api_recipes isURL sample_env []
      (incoming "" (sample_payload (JStr "") [JStr "y"]))
    = ([], Response 400
             (errors_body
                (Violation "name" "Recipe name is required" (Some (JStr ""))
                 :: rest))).
Proof.
  unfold ServerJs.post_api_recipes.
  pose proof (incoming_violations isURL ""
                (sample_payload (JStr "") [JStr "y"])) as H.
  rewrite post_handler_400; rewrite H; [| discriminate].
  eexists. reflexivity.
Qed.

(** A payload that breaks three rules gets three violations, in the order
    of the rules. *)
Example three_violations_in_order :
  List.map path
    (validationResult
       (run_chains (recipeValidators sample_isURL)
          (incoming ""
             (<["prepTimeMinutes" := JNum 0]> (sample_payload (JStr " ") [])))))
  = ["name"; "ingredients"; "prepTimeMinutes"].
Proof. by_computation. Qed.

(** C1, on the example of the specification: [C, A, B]. *)
Lemma reorder_then_list_in_submitted_order_witness :
  ServerJs.get_api_recipes sample_env
    (ServerJs.post_api_recipes_reorder sample_env [recipe_A; recipe_B; recipe_C]
       (incoming "" (reorder_payload [id_C; id_A; id_B]))).1
  = Response 200
      (JArr (List.map toJSON
               (placed [recipe_A; recipe_B; recipe_C] [id_C; id_A; id_B])))
  /\ List.map name (placed [recipe_A; recipe_B; recipe_C] [id_C; id_A; id_B])
     = ["C"; "A"; "B"].
Proof.
  split; [| by_computation].
  destruct (reorder_then_list_in_submitted_order sample_env sample_env
              [recipe_A; recipe_B; recipe_C] ""
              (reorder_payload [id_C; id_A; id_B])
              [id_C; id_A; id_B] [id_C; id_A; id_B])
    as (_ & _ & _ & _ & H);
    [reflexivity | reflexivity | decided | by_computation | by_computation
    | decided | | apply H].
  - apply Forall_forall. decided.
  - apply Forall_forall. decided.
Defined.





(** C5, on a sequence whose second id no recipe has. *)
Lemma reorder_ignores_unknown_ids_witness :
  status (ServerJs.post_api_recipes_reorder sample_env
            [recipe_A; recipe_B; recipe_C]
            (incoming "" (reorder_payload [id_C; id_D; id_A]))).2 = 200
  /\ List.map _id
       (List.filter (listed [id_C; id_D; id_A])
          (sort_by_position
             (ServerJs.post_api_recipes_reorder sample_env
                [recipe_A; recipe_B; recipe_C]
                (incoming "" (reorder_payload [id_C; id_D; id_A]))).1))
     = [id_C; id_A].
Proof.
  destruct (reorder_ignores_unknown_ids sample_env
              [recipe_A; recipe_B; recipe_C] ""
              (reorder_payload [id_C; id_D; id_A])
              (reorder_payload [id_C; id_A])
              [id_C; id_D; id_A] [id_C; id_A] [id_C; id_D; id_A])
    as (H1 & _ & _ & H2 & _);
    [ reflexivity | decided | by_computation | by_computation
    | by_computation | by_computation | ].
  split; [exact H1 |]. rewrite H2. by_computation.
Defined.

(** C5 as stated fails on an id that is not well-formed: no recipe has
    it, and the reorder is answered 500, in [server.js] and in the
    variants, with nothing written. *)
Lemma reorder_with_malformed_id_answers_500 :
  ServerJs.post_api_recipes_reorder sample_env [recipe_A; recipe_B; recipe_C]
    (incoming "" (reorder_payload [id_C; "xyz"; id_A]))
  = ([recipe_A; recipe_B; recipe_C], Response 500 (message_body "Server error"))
  /\ status (ServerVariant.post_api_recipes_reorder sample_env
               [recipe_A; recipe_B; recipe_C]
               (incoming "" (reorder_payload [id_C; "xyz"; id_A]))).2 = 500.
Proof. split; by_computation. Qed.

(** C6 as stated fails on [server.js]: the 500 body of a failed list
    holds a message and nothing else. *)
Lemma list_failure_of_server_js_has_no_detail :
  ServerJs.get_api_recipes (Env 0 id_D (Some (0%nat, "connection lost")))
    [recipe_A]
  = Response 500 (JObj [("message", JStr "Server error")])
  /\ field (payload (ServerJs.get_api_recipes
                       (Env 0 id_D (Some (0%nat, "connection lost")))
                       [recipe_A])) "error" = None.
Proof. split; by_computation. Qed.




End Examples.

(** ** Further examples *)

Section MoreExamples.
Import express_validator mongoose.

(** X5, on a sequence that holds a string that is no id. *)
Lemma variant_reorder_agrees_on_strings_witness :
  (ServerVariant.post_api_recipes_reorder sample_env [recipe_A; recipe_B]
     (incoming "" (reorder_payload [id_B; "xyz"]))).1
  = (ServerJs.post_api_recipes_reorder sample_env [recipe_A; recipe_B]
       (incoming "" (reorder_payload [id_B; "xyz"]))).1
  /\ status (ServerVariant.post_api_recipes_reorder sample_env [recipe_A; recipe_B]
               (incoming "" (reorder_payload [id_B; "xyz"]))).2
     = status (ServerJs.post_api_recipes_reorder sample_env [recipe_A; recipe_B]
                 (incoming "" (reorder_payload [id_B; "xyz"]))).2.
Proof.
  destruct (variant_reorder_agrees_on_strings sample_env [recipe_A; recipe_B]
              (incoming "" (reorder_payload [id_B; "xyz"])) [id_B; "xyz"])
    as (H1 & H2 & _); [by_computation |].
  by split.
Defined.

(** X6, on a connection that fails after the first of three writes. *)
Lemma reorder_interrupted_keeps_the_first_writes_witness :
  ServerJs.post_api_recipes_reorder (Env 0 id_D (Some (1%nat, "connection lost")))
    [recipe_A; recipe_B; recipe_C]
    (incoming "" (reorder_payload [id_C; id_A; id_B]))
  = ([recipe_A; recipe_B; set_position (Some 1) recipe_C],
     Response 500 (message_body "Server error")).
Proof.
  destruct (reorder_interrupted_keeps_the_first_writes
              (Env 0 id_D (Some (1%nat, "connection lost")))
              [recipe_A; recipe_B; recipe_C] ""
              (reorder_payload [id_C; id_A; id_B])
              [id_C; id_A; id_B] [id_C; id_A; id_B] 1 "connection lost")
    as [H _]; [reflexivity | decided | by_computation | by_computation |].
  destruct H as [H _]; [cbn; lia |]. rewrite H. by_computation.
Defined.

(** X7, on a reorder of two recipes followed by a reorder of all three. *)
Lemma reorder_overrides_an_earlier_reorder_witness :
  ServerJs.post_api_recipes_reorder sample_env
    (ServerJs.post_api_recipes_reorder sample_env [recipe_A; recipe_B; recipe_C]
       (incoming "" (reorder_payload [id_B; id_A]))).1
    (incoming "" (reorder_payload [id_C; id_A; id_B]))
  = ServerJs.post_api_recipes_reorder sample_env [recipe_A; recipe_B; recipe_C]
      (incoming "" (reorder_payload [id_C; id_A; id_B])).
Proof.
  destruct (reorder_overrides_an_earlier_reorder sample_env sample_env
              [recipe_A; recipe_B; recipe_C] ""
              (reorder_payload [id_B; id_A]) (reorder_payload [id_C; id_A; id_B])
              [id_B; id_A] [id_C; id_A; id_B] [id_B; id_A] [id_C; id_A; id_B])
    as [H _];
    [ reflexivity | reflexivity | decided | by_computation | by_computation
    | by_computation | by_computation | | exact H ].
  intros r Hr _. revert r Hr. apply Forall_forall. decided.
Defined.

(** X8, on a collection stored out of order. *)
Lemma list_holds_every_recipe_once_by_position_witness :
  exists l,
    ServerJs.get_api_recipes sample_env [recipe_C; recipe_A; recipe_B]
    = Response 200 (JArr (List.map toJSON l))
    /\ l ≡ₚ [recipe_C; recipe_A; recipe_B]
    /\ StronglySorted before l.
Proof.
  destruct (list_holds_every_recipe_once_by_position sample_env
              [recipe_C; recipe_A; recipe_B]) as (l & H1 & _ & H2 & H3);
    [reflexivity |].
  by exists l.
Defined.

(** X9, on a reorder that names the last of three recipes. *)
Lemma reorder_of_a_part_lists_it_first_witness :
  ServerJs.get_api_recipes sample_env
    (ServerJs.post_api_recipes_reorder sample_env [recipe_A; recipe_B; recipe_C]
       (incoming "" (reorder_payload [id_C]))).1
  = Response 200
      (JArr (List.map toJSON [set_position (Some 1) recipe_C; recipe_A; recipe_B])).
Proof.
  rewrite (reorder_of_a_part_lists_it_first sample_env sample_env
             [recipe_A; recipe_B; recipe_C] "" (reorder_payload [id_C])
             [id_C] [id_C]);
    [ by_computation | reflexivity | reflexivity | decided | by_computation
    | by_computation | ].
  intros r Hr Hid.
  repeat (apply elem_of_cons in Hr as [-> | Hr]); [.. | by apply elem_of_nil in Hr].
  - eexists. split; [reflexivity |]. cbn. lia.
  - eexists. split; [reflexivity |]. cbn. lia.
  - exfalso. apply Hid. left.
Defined.




(** X13, on an update that sends a quantity as a string. *)
Lemma updated_record_meets_the_rules_witness :
  exists r',
    r' ∈ (ServerJs.put_api_recipes sample_isURL sample_env [recipe_A; recipe_B]
            (incoming id_B (<["servings" := JStr "3"]>
                              (sample_payload (JStr " G ") [JStr "y"])))).1
    /\ _id r' = id_B
    /\ validated sample_isURL r' = true.
Proof.
  destruct (updated_record_meets_the_rules sample_isURL sample_env
              [recipe_A; recipe_B] id_B
              (<["servings" := JStr "3"]> (sample_payload (JStr " G ") [JStr "y"])))
    as (r & r' & _ & Hr & H1 & _ & H2 & H3); [by_computation |].
  exists r'. split; [exact H1 |]. split; [| exact H3].
  rewrite H2.
  assert (E : Some (_id r) = Some id_B) by (rewrite <- Hr; by_computation).
  by injection E.
Defined.

(** X14, on servings sent as the string [04]. *)
Lemma quantity_sent_as_text_is_stored_as_a_number_witness :
  field (payload (ServerJs.post_api_recipes sample_isURL sample_env [recipe_A]
                    (incoming "" (<["servings" := JStr "04"]>
                                    (sample_payload (JStr "E") [JStr "y"])))).2)
    "servings"
  = Some (JNum 4).
Proof.
  destruct (quantity_sent_as_text_is_stored_as_a_number sample_isURL sample_env
              [recipe_A] ""
              (<["servings" := JStr "04"]> (sample_payload (JStr "E") [JStr "y"]))
              "servings" "04")
    as (n & Hn & _ & H);
    [repeat constructor | by_computation | by_computation |].
  vm_compute in Hn. injection Hn as <-. apply H. lia.
Defined.

(** X15, on a creation, an update and a reorder in a row. *)
Lemma every_stored_recipe_keeps_meeting_the_rules_witness :
  Forall (fun r => validated sample_isURL r = true)
    (serve (application sample_isURL) [recipe_A; recipe_B]
       [ (sample_env, POST_recipes (sample_payload (JStr " E ") [JStr "y"]));
         (sample_env, PUT_recipe id_A (sample_payload (JStr "F") [JNum 1]));
         (sample_env, POST_reorder (reorder_payload [id_D; id_A])) ]).1.
Proof.
  apply (every_stored_recipe_keeps_meeting_the_rules sample_isURL).
  repeat constructor.
Defined.

(** X16, on the same three requests. *)
Lemma no_recipe_is_ever_removed_witness :
  List.map _id [recipe_A; recipe_B]
  `prefix_of`
  List.map _id
    (serve (application sample_isURL) [recipe_A; recipe_B]
       [ (sample_env, POST_recipes (sample_payload (JStr " E ") [JStr "y"]));
         (sample_env, PUT_recipe id_A (sample_payload (JStr "F") [JNum 1]));
         (sample_env, POST_reorder (reorder_payload [id_D; id_A])) ]).1.
Proof.
  destruct (no_recipe_is_ever_removed sample_isURL [recipe_A; recipe_B]
              [ (sample_env, POST_recipes (sample_payload (JStr " E ") [JStr "y"]));
                (sample_env, PUT_recipe id_A (sample_payload (JStr "F") [JNum 1]));
                (sample_env, POST_reorder (reorder_payload [id_D; id_A])) ])
    as (_ & H & _); [decided | exact H].
Defined.


End MoreExamples.
